(** * extract-gl-client-prof.py: parser, aggregator and tabular emitter

    A shallow embedding of the Gluster client profile extractor
    ([src/extract-gl-client-prof.py]) and the properties its design
    document states about it.

    Conventions of the model.
    - Python [str] is [string]; the log is ASCII text.  [str.split()] is
      stdpp's [String.words] (blank, tab, LF, VT, FF, CR separate tokens).
    - Python [int] is [Z].  Python [float] is IEEE binary64, modelled by the
      executable specification [spec_float] of the standard library with
      precision 53 and maximal exponent 1024 (round to nearest, ties to even).
    - A Python exception is a value [Raise e] of the type [result]; every
      exception of the script is uncaught, hence fatal, except the
      [ZeroDivisionError] and [KeyError] handlers written in the source.
    - Dictionaries are [gmap string _], the set of names a [gset string],
      the list [intervals] a [list] indexed the way Python indexes.  The one
      dictionary that the script iterates over, [fop_profiles], carries the
      list of its keys in insertion order beside the map: a dictionary is
      iterated in the order in which its keys were inserted. *)

From Stdlib Require Import ZArith Ascii String List Bool Lia.
From Stdlib Require Import SpecFloat DecimalString.
From stdpp Require Import base option list gmap strings sorting.

Local Open Scope Z_scope.

(** ** Exceptions *)

Inductive py_error : Type :=
  | AssertionError
  | IndexError
  | ValueError
  | TypeError
  | OverflowError
  | ZeroDivisionError
  | KeyError (key : string)
  (** the [Exception('did not expect fop already defined: ...')] that
      [parse_input] raises once its message is built; see
      [raise_fop_already_defined] *)
  | FopAlreadyDefined (fop_name : string).

Inductive result (A : Type) : Type :=
  | Ok (a : A)
  | Raise (e : py_error).
Arguments Ok {A} a.
Arguments Raise {A} e.

Global Instance result_ret : MRet result := fun _ a => Ok a.
Global Instance result_bind : MBind result := fun _ _ k r =>
  match r with
  | Ok a => k a
  | Raise e => Raise e
  end.

Definition py_assert (b : bool) : result unit :=
  if b then Ok tt else Raise AssertionError.

Definition of_option {A} (e : py_error) (o : option A) : result A :=
  match o with Some a => Ok a | None => Raise e end.

Definition raises {A} (r : result A) : Prop := exists e, r = Raise e.

(** ** Python sequences *)

(** [l[i]] for a Python list: a negative index counts from the end, an index
    out of range raises [IndexError]. *)
Definition py_index {A} (l : list A) (i : Z) : result nat :=
  let n := Z.of_nat (length l) in
  if (0 <=? i) && (i <? n) then Ok (Z.to_nat i)
  else if (- n <=? i) && (i <? 0) then Ok (Z.to_nat (n + i))
  else Raise IndexError.

Definition py_getitem {A} (l : list A) (i : Z) : result A :=
  n ← py_index l i; of_option IndexError (l !! n).

(** ** Strings *)

(** [needle in s], the [str.__contains__] of the source *)
Fixpoint contains (needle s : string) : bool :=
  String.prefix needle s ||
  match s with
  | EmptyString => false
  | String _ s' => contains needle s'
  end.

Fixpoint lstrip (l : list ascii) : list ascii :=
  match l with
  | a :: l' => if Ascii.is_space a then lstrip l' else l
  | [] => []
  end.

(** [s.strip()] *)
Definition py_strip (s : string) : string :=
  string_of_list_ascii
    (rev (lstrip (rev (lstrip (list_ascii_of_string s))))).

Definition is_upper (a : ascii) : bool :=
  let n := nat_of_ascii a in (65 <=? n)%nat && (n <=? 90)%nat.

Fixpoint leading_upper (s : string) : nat :=
  match s with
  | String a s' => if is_upper a then S (leading_upper s') else O
  | EmptyString => O
  end.

(** [all_caps_name.match(ln)] for [re.compile('^[A-Z]{3,15}')]: [match]
    anchors at the start only, so the pattern matches exactly when the line
    starts with at least three capital letters (at most fifteen of them are
    consumed, which does not change whether there is a match). *)
Definition all_caps_name_match (ln : string) : bool :=
  (3 <=? leading_upper ln)%nat.

Fixpoint str_repeat (n : nat) (a : ascii) : string :=
  match n with
  | O => EmptyString
  | S n' => String a (str_repeat n' a)
  end.

(** right- and left-justification in a field of [w] characters, as the
    width of a [%] conversion does *)
Definition rjust (w : nat) (s : string) : string :=
  str_repeat (w - String.length s) " " +:+ s.
Definition ljust (w : nat) (s : string) : string :=
  s +:+ str_repeat (w - String.length s) " ".

(** [sep.join(l)] *)
Fixpoint py_join (sep : string) (l : list string) : string :=
  match l with
  | [] => ""
  | [s] => s
  | s :: l' => s +:+ sep +:+ py_join sep l'
  end.

Definition str_concat (l : list string) : string :=
  foldr String.append "" l.

(** ** Numbers *)

Definition float : Type := spec_float.

Definition prec : Z := 53.
Definition emax : Z := 1024.

Definition fmul : float -> float -> float := SFmul prec emax.
Definition fdiv : float -> float -> float := SFdiv prec emax.
Definition fadd : float -> float -> float := SFadd prec emax.
Definition feqb : float -> float -> bool := SFeqb.
Definition fltb : float -> float -> bool := SFltb.

(** the nearest binary64 value of an integer *)
Definition float_of_Z (z : Z) : float := binary_normalize prec emax z 0 false.

Definition fzero : float := S754_zero false.

Definition is_nan (x : float) : bool :=
  match x with S754_nan => true | _ => false end.
Definition is_finite (x : float) : bool :=
  match x with S754_zero _ | S754_finite _ _ _ => true | _ => false end.

(** [float(n)] and the implicit conversion of an [int] operand in mixed
    arithmetic: an integer beyond the binary64 range raises *)
Definition py_float_of_int (z : Z) : result float :=
  match float_of_Z z with
  | S754_infinity _ => Raise OverflowError
  | x => Ok x
  end.

(** [x / y] on floats *)
Definition py_truediv (x y : float) : result float :=
  if feqb y fzero then Raise ZeroDivisionError else Ok (fdiv x y).

(** [max(a, b)] and [min(a, b)]: the first argument is kept unless the
    second one is strictly greater (smaller) *)
Definition py_max (a b : float) : float := if fltb a b then b else a.
Definition py_min (a b : float) : float := if fltb b a then b else a.

(** [int(x)] of a float, as the [%d] conversion applies it: truncation. *)
Definition py_int_of_float (x : float) : result Z :=
  match x with
  | S754_zero _ => Ok 0
  | S754_nan => Raise ValueError
  | S754_infinity _ => Raise OverflowError
  | S754_finite s m e =>
      let a := match e with
               | Zneg p => Z.pos m / 2 ^ Z.pos p
               | _ => Z.pos m * 2 ^ e
               end in
      Ok (if s then - a else a)
  end.

Definition string_of_Z (z : Z) : string :=
  NilZero.string_of_int (Z.to_int z).

(** ['%d' % x] for a float [x] *)
Definition fmt_d (x : float) : result string :=
  z ← py_int_of_float x; Ok (string_of_Z z).

(** the decimal digits of [n], zero-filled on the left to [w] digits *)
Definition zfill (w : nat) (n : Z) : string :=
  let s := string_of_Z n in
  str_repeat (w - String.length s) "0" +:+ s.

(** |x| * 10^p rounded to the nearest integer, ties to even, for
    x = m * 2^e *)
Definition round_scaled (p : nat) (m : positive) (e : Z) : Z :=
  let scale := 10 ^ Z.of_nat p in
  match e with
  | Zneg d =>
      let den := 2 ^ Z.pos d in
      let num := Z.pos m * scale in
      let q := num / den in
      let r := num mod den in
      if (den <? 2 * r) || ((den =? 2 * r) && Z.odd q) then q + 1 else q
  | _ => Z.pos m * 2 ^ e * scale
  end.

Definition sign_str (s : bool) : string := if s then "-" else "".

(** ['%.<p>f' % x] without the field width: the exact value of [x] printed
    with [p] digits after the point *)
Definition fmt_f (p : nat) (x : float) : string :=
  let digits (n : Z) :=
    let scale := 10 ^ Z.of_nat p in
    string_of_Z (n / scale) +:+
    match p with
    | O => ""
    | _ => "." +:+ zfill p (n mod scale)
    end in
  match x with
  | S754_nan => "nan"
  | S754_infinity s => sign_str s +:+ "inf"
  | S754_zero s => sign_str s +:+ digits 0
  | S754_finite s m e => sign_str s +:+ digits (round_scaled p m e)
  end.

(** ** Builtins that read text

    [int(s)] and [float(s)] on a token and the conversion of the header's
    timestamp are functions of the Python runtime, not of the script; the
    development is parametric in them.  [None] stands for the [ValueError]
    that [int] and [float] raise on a token they cannot read.
    [py_mktime_strptime s] is
    [time.mktime(time.strptime(s, '%a %b %d %H:%M:%S %Z %Y'))], which
    depends on the time zone of the host. *)
Class Builtins : Type := {
  py_int : string -> option Z;
  py_float : string -> option float;
  py_mktime_strptime : string -> result float
}.

(** ** Record model *)

(** class [FopProfile] *)
Record FopProfile : Type := mkFopProfile {
  avg_lat : float;
  min_lat : float;
  max_lat : float;
  calls : float;
  pct_lat : float
}.

(** [FopProfile.__init__]: [pct_lat] "will compute later" *)
Definition new_FopProfile (avg min max n : float) : FopProfile :=
  mkFopProfile avg min max n fzero.

(** [FopProfile.__str__]: the four [%f] conversions print any float, the
    [%d] conversion of [calls] raises for a call count that is not a finite
    number *)
Definition FopProfile_str (p : FopProfile) : result string :=
  n ← py_int_of_float (calls p);
  Ok (rjust 6 (fmt_f 2 (pct_lat p)) +:+ ", " +:+
      rjust 8 (fmt_f 0 (avg_lat p)) +:+ ", " +:+
      rjust 8 (fmt_f 0 (min_lat p)) +:+ ", " +:+
      rjust 8 (fmt_f 0 (max_lat p)) +:+ ", " +:+ string_of_Z n).

(** class [ProfileInterval]; [None] is Python's [None] of [__init__].
    The dictionary [fop_profiles] is the map together with [fop_order], its
    keys in insertion order. *)
Record ProfileInterval : Type := mkProfileInterval {
  bytes_read : option Z;
  bytes_written : option Z;
  duration : option Z;
  fop_profiles : gmap string FopProfile;
  fop_order : list string
}.

Definition new_ProfileInterval : ProfileInterval :=
  mkProfileInterval None None None ∅ [].

Definition set_bytes_read (v : Z) (p : ProfileInterval) : ProfileInterval :=
  mkProfileInterval (Some v) (bytes_written p) (duration p) (fop_profiles p)
    (fop_order p).
Definition set_bytes_written (v : Z) (p : ProfileInterval) : ProfileInterval :=
  mkProfileInterval (bytes_read p) (Some v) (duration p) (fop_profiles p)
    (fop_order p).
Definition set_duration (v : Z) (p : ProfileInterval) : ProfileInterval :=
  mkProfileInterval (bytes_read p) (bytes_written p) (Some v) (fop_profiles p)
    (fop_order p).
(** the records of the dictionary replaced, its keys unchanged *)
Definition set_fop_profiles (m : gmap string FopProfile) (p : ProfileInterval)
  : ProfileInterval :=
  mkProfileInterval (bytes_read p) (bytes_written p) (duration p) m
    (fop_order p).
(** [p.fop_profiles[key] = value]: a key that is new comes last in the
    iteration order, a key already there keeps its place *)
Definition setitem_fop (key : string) (value : FopProfile)
  (p : ProfileInterval) : ProfileInterval :=
  mkProfileInterval (bytes_read p) (bytes_written p) (duration p)
    (<[key := value]> (fop_profiles p))
    (match fop_profiles p !! key with
     | Some _ => fop_order p
     | None => fop_order p ++ [key]
     end).

(** the items of [fop_profiles] in iteration order *)
Definition fop_items (p : ProfileInterval) : list (string * FopProfile) :=
  omap (fun f => pair f <$> fop_profiles p !! f) (fop_order p).

(** [[str(f) + ' : ' + str(self.fop_profiles[f]) for f in self.fop_profiles]] *)
Fixpoint str_fop_items (items : list (string * FopProfile))
  : result (list string) :=
  match items with
  | [] => Ok []
  | (f, p) :: rest =>
      s ← FopProfile_str p;
      l ← str_fop_items rest;
      Ok ((f +:+ " : " +:+ s) :: l)
  end.

(** [str(x)] for [x] an [int] or [None] *)
Definition str_opt_int (o : option Z) : string :=
  match o with Some z => string_of_Z z | None => "None" end.

(** [ProfileInterval.__str__], up to the rendering of the text: the result
    is the four operands that ['%d, %d, %s, %s'] converts.  The tuple is
    built first, so the list of the records is formatted before the
    conversion starts; then [%d] raises [TypeError] for a byte counter that
    is still [None]. *)
Definition ProfileInterval_str (p : ProfileInterval)
  : result (Z * Z * string * list string) :=
  items ← str_fop_items (fop_items p);
  r ← of_option TypeError (bytes_read p);
  w ← of_option TypeError (bytes_written p);
  Ok (r, w, str_opt_int (duration p), items).

(** module constants *)
Definition stat_names : list string :=
  ["pct-lat"; "avg-lat"; "min-lat"; "max-lat"; "call-rate"].
Definition directions : list string := ["MBps-read"; "MBps-written"].
(** [min_lat_infinity = 1.0e24], the binary64 value nearest to 10^24 *)
Definition min_lat_infinity : float := float_of_Z (10 ^ 24).

(** [pbench_graphs]: true unless the environment variable
    SKIP_PBENCH_GRAPHING is set to a non-empty string ([os.getenv] gives
    [None] for an unset variable, and the empty string is false) *)
Definition pbench_graphs_of_env (skip_pbench_graphing : option string) : bool :=
  match skip_pbench_graphing with
  | None => true
  | Some "" => true
  | Some _ => false
  end.

(** ** Log parser *)

(** the local variables of the loop of [parse_input], the global list
    [intervals] it fills, and the warnings it prints as triples
    (sample, duration, expected interval) *)
Record parse_state : Type := mkParseState {
  found_cumulative_output : bool;
  found_interval_output : bool;
  fop_names : gset string;
  last_intvl : Z;
  intvl : Z;
  sample : Z;
  intervals : list ProfileInterval;
  warnings : list (Z * Z * Z)
}.

Definition init_state : parse_state :=
  mkParseState false false ∅ (-2) (-1) (-1) [] [].

Definition with_flags (cum int : bool) (st : parse_state) : parse_state :=
  mkParseState cum int (fop_names st) (last_intvl st) (intvl st) (sample st)
    (intervals st) (warnings st).
Definition with_intervals (l : list ProfileInterval) (st : parse_state)
  : parse_state :=
  mkParseState (found_cumulative_output st) (found_interval_output st)
    (fop_names st) (last_intvl st) (intvl st) (sample st) l (warnings st).
Definition with_warning (w : Z * Z * Z) (st : parse_state) : parse_state :=
  mkParseState (found_cumulative_output st) (found_interval_output st)
    (fop_names st) (last_intvl st) (intvl st) (sample st) (intervals st)
    (warnings st ++ [w]).

(** the seven markers, in the order of the [if]/[elif] chain *)
Inductive line_kind : Type :=
  | IntervalMarker
  | CumulativeStatsCapital
  | DurationLine
  | BytesReadLine
  | BytesWrittenLine
  | CumulativeStatsMarker
  | CurrentOpenFd
  | NoMarker.

Definition classify (ln : string) : line_kind :=
  if contains "Interval" ln && contains "stats" ln then IntervalMarker
  else if contains "Cumulative Stats" ln then CumulativeStatsCapital
  else if contains "Duration :" ln then DurationLine
  else if contains "BytesRead" ln then BytesReadLine
  else if contains "BytesWritten" ln then BytesWrittenLine
  else if contains "Cumulative stats" ln then CumulativeStatsMarker
  else if contains "Current open fd" ln then CurrentOpenFd
  else NoMarker.

Section Parser.
Context `{B : Builtins}.

(** [int(tokens[i])] and [float(tokens[i])] *)
Definition int_token (tokens : list string) (i : Z) : result Z :=
  t ← py_getitem tokens i; of_option ValueError (py_int t).
Definition float_token (tokens : list string) (i : Z) : result float :=
  t ← py_getitem tokens i; of_option ValueError (py_float t).

(** [intervals[intvl].<field> = v]: the object in the list is mutated *)
Definition update_current (f : ProfileInterval -> ProfileInterval)
  (st : parse_state) : result parse_state :=
  n ← py_index (intervals st) (intvl st);
  p ← of_option IndexError (intervals st !! n);
  Ok (with_intervals (<[n := f p]> (intervals st)) st).

(** The [try] block of the operation row when the name is already a key:
    the lookup succeeds and the [raise] statement runs.  Its operand
    ['...: %s' % str(intvl_profile)] is evaluated first and formats the
    whole interval, which raises [ValueError] or [OverflowError] at the
    first stored record whose call count is nan or infinite, and
    [TypeError] when a byte counter is still [None].  Only when the message
    is built is the [Exception] raised.  None of these is a [KeyError], so
    the handler of the [try] does not catch it: the statement always ends
    the run. *)
Definition raise_fop_already_defined {A} (fop_name : string)
  (intvl_profile : ProfileInterval) : result A :=
  match ProfileInterval_str intvl_profile with
  | Ok _ => Raise (FopAlreadyDefined fop_name)
  | Raise e => Raise e
  end.

(** one iteration of [for ln in lines[2:]] *)
Definition parse_line (expected_sample_interval : Z) (st : parse_state)
  (ln : string) : result parse_state :=
  let tokens := String.words ln in
  match classify ln with
  | IntervalMarker =>
      interval_number ← int_token tokens 2;
      py_assert (intvl st =? last_intvl st + 1);;
      Ok (mkParseState (found_cumulative_output st) true (fop_names st)
            (intvl st) (intvl st + 1) (sample st)
            (intervals st ++ [new_ProfileInterval]) (warnings st))
  | CumulativeStatsCapital =>
      Ok (with_flags true (found_interval_output st) st)
  | DurationLine =>
      py_assert (xorb (found_cumulative_output st) (found_interval_output st));;
      duration ← int_token tokens 2;
      let diff_from_expected := Z.abs (duration - expected_sample_interval) in
      if found_interval_output st then
        let st1 :=
          if 1 <? diff_from_expected
          then with_warning (sample st, duration, expected_sample_interval) st
          else st in
        update_current (set_duration duration) st1
      else Ok st
  | BytesReadLine =>
      if found_interval_output st then
        _ ← py_getitem (intervals st) (intvl st);
        v ← int_token tokens 2;
        update_current (set_bytes_read v) st
      else Ok st
  | BytesWrittenLine =>
      if found_interval_output st then
        _ ← py_getitem (intervals st) (intvl st);
        v ← int_token tokens 2;
        update_current (set_bytes_written v) st
      else Ok st
  | CumulativeStatsMarker => Ok (with_flags true false st)
  | CurrentOpenFd => Ok (with_flags false (found_interval_output st) st)
  | NoMarker =>
      if found_interval_output st && all_caps_name_match ln then
        intvl_profile ← py_getitem (intervals st) (intvl st);
        fop_name ← py_getitem tokens 0;
        avg ← float_token tokens 2;
        min ← float_token tokens 4;
        max ← float_token tokens 6;
        n ← float_token tokens 1;
        let new_fop_profile := new_FopProfile avg min max n in
        let st1 :=
          mkParseState (found_cumulative_output st) (found_interval_output st)
            ({[fop_name]} ∪ fop_names st) (last_intvl st) (intvl st)
            (sample st + 1) (intervals st) (warnings st) in
        match fop_profiles intvl_profile !! fop_name with
        | Some fop_stats => raise_fop_already_defined fop_name intvl_profile
        | None => update_current (setitem_fop fop_name new_fop_profile) st1
        end
      else Ok st
  end.

Fixpoint parse_lines (expected_sample_interval : Z) (st : parse_state)
  (lines : list string) : result parse_state :=
  match lines with
  | [] => Ok st
  | ln :: rest =>
      st' ← parse_line expected_sample_interval st ln;
      parse_lines expected_sample_interval st' rest
  end.

(** the globals that [parse_input] sets *)
Record globals : Type := mkGlobals {
  start_time : float;
  expected_sample_interval : Z;
  expected_sample_count : Z;
  sorted_fop_names : list string;
  g_intervals : list ProfileInterval
}.

(** [sorted(fop_names)] *)
Definition sorted (s : gset string) : list string :=
  merge_sort String.le (elements s).

Definition finish (start : float) (esi count : Z) (st : parse_state)
  : globals :=
  mkGlobals start esi count (sorted (fop_names st)) (intervals st).

(** [parse_input], from the list that [readlines()] returns *)
Definition parse_input (file_lines : list string) : result globals :=
  let lines := py_strip <$> file_lines in
  line0 ← py_getitem lines 0;
  let tokens := String.words line0 in
  count ← int_token tokens 0;
  esi ← int_token tokens 1;
  line1 ← py_getitem lines 1;
  t ← py_mktime_strptime line1;
  let start := fmul t (float_of_Z 1000) in
  st ← parse_lines esi init_state (drop 2 lines);
  Ok (finish start esi count st).

End Parser.

(** ** Aggregator: the methods of [FopProfile] *)

(** [FopProfile.accumulate]: weighted sum, normalised later *)
Definition accumulate (self addend : FopProfile) : FopProfile :=
  let avg := fadd (avg_lat self) (fmul (avg_lat addend) (calls addend)) in
  let n := fadd (calls self) (calls addend) in
  if fltb fzero (calls addend)
  then mkFopProfile avg (py_min (min_lat self) (min_lat addend))
         (py_max (max_lat self) (max_lat addend)) n (pct_lat self)
  else mkFopProfile avg (min_lat self) (max_lat self) n (pct_lat self).

(** [FopProfile.normalize_sum], with its [ZeroDivisionError] handler *)
Definition normalize_sum (self : FopProfile) : FopProfile :=
  match py_truediv (avg_lat self) (calls self) with
  | Ok q => mkFopProfile q (min_lat self) (max_lat self) (calls self)
              (pct_lat self)
  | Raise _ => mkFopProfile fzero (min_lat self) (max_lat self) (calls self)
                 fzero
  end.

(** [FopProfile.get_pct_lat], with its [ZeroDivisionError] handler *)
Definition get_pct_lat (self : FopProfile) (total_lat : float) : FopProfile :=
  let pct :=
    match py_truediv
            (fmul (float_of_Z 100) (fmul (avg_lat self) (calls self)))
            total_lat with
    | Ok q => q
    | Raise _ => fzero
    end in
  mkFopProfile (avg_lat self) (min_lat self) (max_lat self) (calls self) pct.

(** [FopProfile.field2str]; a statistic that is none of [stat_names]
    falls off the end of the method, which returns [None] *)
Definition field2str (self : FopProfile) (stat : string)
  (duration : option Z) : result (option string) :=
  if String.eqb stat "pct-lat" then
    Ok (Some (ljust 6 (fmt_f 2 (pct_lat self))))
  else if String.eqb stat "avg-lat" then
    Ok (Some (rjust 8 (fmt_f 0 (avg_lat self))))
  else if String.eqb stat "min-lat" then
    if feqb (min_lat self) min_lat_infinity then Ok (Some "")
    else Ok (Some (rjust 8 (fmt_f 0 (min_lat self))))
  else if String.eqb stat "max-lat" then
    if feqb (max_lat self) fzero then Ok (Some "")
    else Ok (Some (rjust 8 (fmt_f 0 (max_lat self))))
  else if String.eqb stat "call-rate" then
    d ← of_option TypeError duration;
    fd ← py_float_of_int d;
    call_rate ← py_truediv (calls self) fd;
    Ok (Some (rjust 10 (fmt_f 3 call_rate)))
  else Ok None.

(** ** Tabular emitter *)

Definition nl : string := String (ascii_of_nat 10) EmptyString.

(** [gen_timestamp_ms] *)
Definition gen_timestamp_ms (g : globals) (sample_index : Z) : result float :=
  x ← py_float_of_int ((expected_sample_interval g * sample_index) * 1000);
  Ok (fadd (start_time g) x).

(** [get_interval] *)
Definition get_interval (g : globals) (interval_index : Z)
  (duration_type : string) : result float :=
  if String.eqb duration_type "cumulative" then
    e ← py_float_of_int (expected_sample_interval g);
    i ← py_float_of_int interval_index;
    Ok (fmul i e)
  else py_float_of_int (expected_sample_interval g).

(** the text of [fh.write('%d, ' % gen_timestamp_ms(i))] under
    [if pbench_graphs:] *)
Definition timestamp_column (pbench_graphs : bool) (g : globals) (i : Z)
  : result string :=
  if pbench_graphs then
    t ← gen_timestamp_ms g i;
    s ← fmt_d t;
    Ok (s +:+ ", ")
  else Ok "".

Definition bytes_per_MB : float := float_of_Z 1000000.

(** one iteration of [for j in range(0, len(intervals))] of
    [gen_output_bytes]: the text written for interval [j] *)
Definition bytes_row (pbench_graphs : bool) (g : globals)
  (direction : string) (j : nat) : result string :=
  ts ← timestamp_column pbench_graphs g (Z.of_nat j);
  rate_interval ← get_interval g (Z.of_nat j) "interval";
  interval_profile ← py_getitem (g_intervals g) (Z.of_nat j);
  let transfer :=
    if contains "read" direction then bytes_read interval_profile
    else bytes_written interval_profile in
  v ← of_option TypeError transfer;
  x ← py_float_of_int v;
  q ← py_truediv x rate_interval;
  r ← py_truediv q bytes_per_MB;
  Ok (ts +:+ ljust 8 (fmt_f 3 r) +:+ nl).

Fixpoint write_rows (row : nat -> result string) (js : list nat)
  (out : string) : result string :=
  match js with
  | [] => Ok out
  | j :: rest => s ← row j; write_rows row rest (out +:+ s)
  end.

Definition bytes_header (pbench_graphs : bool) : string :=
  (if pbench_graphs then "timestamp_ms, " else "") +:+ "MB/s" +:+ nl.

(** the body of [for direction in directions] of [gen_output_bytes]: the
    content of the file [direction + '.csv'] *)
Definition gen_output_bytes_file (pbench_graphs : bool) (g : globals)
  (direction : string) : result string :=
  write_rows (bytes_row pbench_graphs g direction)
    (seq 0 (length (g_intervals g))) (bytes_header pbench_graphs).

Fixpoint gen_output_bytes_loop (pbench_graphs : bool) (g : globals)
  (ds : list string) : result (list (string * string)) :=
  match ds with
  | [] => Ok []
  | direction :: rest =>
      content ← gen_output_bytes_file pbench_graphs g direction;
      files ← gen_output_bytes_loop pbench_graphs g rest;
      Ok ((direction +:+ ".csv", content) :: files)
  end.

(** [gen_output_bytes]: the files written, as (name, content) *)
Definition gen_output_bytes (pbench_graphs : bool) (g : globals)
  : result (list (string * string)) :=
  gen_output_bytes_loop pbench_graphs g directions.

(** the first inner loop of [gen_per_fop_stats]:
    [for fop in sorted_fop_names: all_fop_profile.accumulate(...)] *)
Fixpoint accumulate_all (fops : gmap string FopProfile) (names : list string)
  (all_fop_profile : FopProfile) : result FopProfile :=
  match names with
  | [] => Ok all_fop_profile
  | fop :: rest =>
      fop_stats ← of_option (KeyError fop) (fops !! fop);
      accumulate_all fops rest (accumulate all_fop_profile fop_stats)
  end.

(** the second inner loop: it writes [pct_lat] into the records of the
    dictionary and collects the columns.  The dictionary is returned also
    when the loop raises, as the records already visited stay mutated.
    The lookup of line 404 repeats the one of line 400 on the same key, so
    its [KeyError] handler cannot run. *)
Fixpoint columns_loop (stat : string) (duration : option Z)
  (total_lat : float) (names : list string) (fops : gmap string FopProfile)
  (columns : list (option string))
  : gmap string FopProfile * result (list (option string)) :=
  match names with
  | [] => (fops, Ok columns)
  | fop :: rest =>
      match fops !! fop with
      | None => (fops, Raise (KeyError fop))
      | Some fop_stats =>
          let fop_stats' := get_pct_lat fop_stats total_lat in
          let fops' := <[fop := fop_stats']> fops in
          match field2str fop_stats' stat duration with
          | Raise e => (fops', Raise e)
          | Ok c => columns_loop stat duration total_lat rest fops'
                      (columns ++ [c])
          end
      end
  end.

(** [','.join(columns)]: an item that is [None] is a [TypeError] *)
Fixpoint join_columns (columns : list (option string)) : result (list string) :=
  match columns with
  | [] => Ok []
  | Some c :: rest => l ← join_columns rest; Ok (c :: l)
  | None :: _ => Raise TypeError
  end.

(** the synthetic accumulator [FopProfile(0, 0, 0, 0)]; the integer zeros
    become floats at the first addition, and [0 / 0] on integers raises the
    same [ZeroDivisionError] *)
Definition empty_all_fop_profile : FopProfile :=
  new_FopProfile fzero fzero fzero fzero.

(** one iteration of [for i in range(0, len(intervals))] of
    [gen_per_fop_stats]: the interval as the iteration leaves it, and the
    text it writes *)
Definition fop_row (pbench_graphs : bool) (g : globals) (stat : string)
  (i : nat) (interval_profile : ProfileInterval)
  : ProfileInterval * result string :=
  let fops_in_interval := fop_profiles interval_profile in
  match accumulate_all fops_in_interval (sorted_fop_names g)
          empty_all_fop_profile with
  | Raise e => (interval_profile, Raise e)
  | Ok acc =>
      let all_fop_profile := normalize_sum acc in
      match timestamp_column pbench_graphs g (Z.of_nat i) with
      | Raise e => (interval_profile, Raise e)
      | Ok ts =>
          let '(fops', r) :=
            columns_loop stat (duration interval_profile)
              (fmul (avg_lat all_fop_profile) (calls all_fop_profile))
              (sorted_fop_names g) fops_in_interval [] in
          (set_fop_profiles fops' interval_profile,
           columns ← r;
           l ← join_columns columns;
           Ok (ts +:+ py_join "," l +:+ nl))
      end
  end.

Fixpoint fop_rows (pbench_graphs : bool) (g : globals) (stat : string)
  (idxs : list nat) (ivs : list ProfileInterval) (out : string)
  : list ProfileInterval * result string :=
  match idxs with
  | [] => (ivs, Ok out)
  | i :: rest =>
      match ivs !! i with
      | None => (ivs, Raise IndexError)
      | Some interval_profile =>
          let '(p', r) := fop_row pbench_graphs g stat i interval_profile in
          let ivs' := <[i := p']> ivs in
          match r with
          | Raise e => (ivs', Raise e)
          | Ok s => fop_rows pbench_graphs g stat rest ivs' (out +:+ s)
          end
      end
  end.

Definition fop_header (pbench_graphs : bool) (g : globals) : string :=
  (if pbench_graphs then "timestamp_ms, " else "") +:+
  py_join "," (sorted_fop_names g) +:+ nl.

(** [gen_per_fop_stats]: the list [intervals] as the call leaves it, and
    the content added to [stat + '.csv'] *)
Definition gen_per_fop_stats (pbench_graphs : bool) (g : globals)
  (stat : string) : list ProfileInterval * result string :=
  fop_rows pbench_graphs g stat (seq 0 (length (g_intervals g)))
    (g_intervals g) (fop_header pbench_graphs g).

Definition with_g_intervals (l : list ProfileInterval) (g : globals)
  : globals :=
  mkGlobals (start_time g) (expected_sample_interval g)
    (expected_sample_count g) (sorted_fop_names g) l.

(** [for s in stat_names: gen_per_fop_stats(out_dir_path, s)] *)
Fixpoint gen_all_fop_stats (pbench_graphs : bool) (g : globals)
  (stats : list string) : globals * result (list (string * string)) :=
  match stats with
  | [] => (g, Ok [])
  | s :: rest =>
      let '(ivs, r) := gen_per_fop_stats pbench_graphs g s in
      let g' := with_g_intervals ivs g in
      match r with
      | Raise e => (g', Raise e)
      | Ok content =>
          let '(g'', r') := gen_all_fop_stats pbench_graphs g' rest in
          (g'', files ← r'; Ok ((s +:+ ".csv", content) :: files))
      end
  end.

(** the tables of [generate_output] *)
Definition generate_output (pbench_graphs : bool) (g : globals)
  : globals * result (list (string * string)) :=
  match gen_output_bytes pbench_graphs g with
  | Raise e => (g, Raise e)
  | Ok byte_files =>
      let '(g', r) := gen_all_fop_stats pbench_graphs g stat_names in
      (g', files ← r; Ok (byte_files ++ files))
  end.

(** ** An instance of the builtins, to run the model

    [int] and [float] restricted to the tokens the profiler prints: an
    optional sign and decimal digits, for [float] with an optional
    fraction.  The value of a decimal is the correctly rounded quotient of
    two integers.  The clock is that of a host in UTC, defined on the
    timestamp that the header comment of the script gives as its example. *)
Module Decimal.

Fixpoint digits_value (s : string) (acc : Z) : option Z :=
  match s with
  | EmptyString => Some acc
  | String a s' =>
      match Ascii.is_nat a with
      | Some d => digits_value s' (10 * acc + Z.of_nat d)
      | None => None
      end
  end.

Definition split_sign (s : string) : bool * string :=
  match s with
  | String "-" r => (true, r)
  | String "+" r => (false, r)
  | _ => (false, s)
  end.

Fixpoint split_point (s : string) : string * string :=
  match s with
  | EmptyString => (EmptyString, EmptyString)
  | String "." r => (EmptyString, r)
  | String a r => let '(i, f) := split_point r in (String a i, f)
  end.

Definition int_of_token (s : string) : option Z :=
  let '(neg, body) := split_sign s in
  match body with
  | EmptyString => None
  | _ => z ← digits_value body 0; Some (if neg then - z else z)
  end.

Definition float_of_token (s : string) : option float :=
  let '(neg, body) := split_sign s in
  let '(ip, fp) := split_point body in
  match ip, fp with
  | EmptyString, EmptyString => None
  | _, _ =>
      i ← digits_value ip 0;
      f ← digits_value fp 0;
      let k := Z.of_nat (String.length fp) in
      match i * 10 ^ k + f with
      | Zpos m =>
          Some (fdiv (S754_finite neg m 0)
                  (S754_finite false (Z.to_pos (10 ^ k)) 0))
      | _ => Some (S754_zero neg)
      end
  end.

Definition mktime_strptime (s : string) : result float :=
  if String.eqb s "Wed Oct 21 22:50:28 UTC 2015"
  then Ok (float_of_Z 1445467828)
  else Raise ValueError.

End Decimal.

Definition decimal_builtins : Builtins :=
  Build_Builtins Decimal.int_of_token Decimal.float_of_token
    Decimal.mktime_strptime.

(** * Predicates and reference definitions used by the statements *)

(** the two counters and the length of [intervals] move together, so the
    assertion of the interval marker compares two numbers that are equal by
    construction, and the current interval is the last of the list *)
Definition counters_inv (st : parse_state) : Prop :=
  intvl st = last_intvl st + 1 /\
  intvl st = Z.of_nat (length (intervals st)) - 1.


(** every observed name is a key of some interval, and conversely *)
Definition names_inv (st : parse_state) : Prop :=
  forall name,
    name ∈ fop_names st <->
    exists i iv, intervals st !! i = Some iv /\
                 is_Some (fop_profiles iv !! name).

(** a line that the loop reads as an operation row when it is in an
    interval block: no marker, and a match of [all_caps_name] *)
Definition op_row (ln : string) : Prop :=
  classify ln = NoMarker /\ all_caps_name_match ln = true.

(** [tokens[0]] of a line *)
Definition row_name (ln : string) : option string := head (String.words ln).




(** every call count stored in the interval is a finite number *)
Definition finite_calls (iv : ProfileInterval) : Prop :=
  forall f p, fop_profiles iv !! f = Some p -> is_finite (calls p) = true.

(** the exceptions that formatting an interval can raise *)
Definition formatting_error (e : py_error) : Prop :=
  e = TypeError \/ e = ValueError \/ e = OverflowError.

(** the list of keys of an interval is its dictionary's: every key once *)
Definition dict_inv (iv : ProfileInterval) : Prop :=
  NoDup (fop_order iv) /\
  forall f, f ∈ fop_order iv <-> is_Some (fop_profiles iv !! f).

(** a line that sets neither flag and is not a "Duration :" line *)
Definition sets_no_flag (ln : string) : Prop :=
  classify ln = BytesReadLine \/ classify ln = BytesWrittenLine \/
  classify ln = CurrentOpenFd \/ classify ln = NoMarker.

(** ** Sample logs, in the format of the client profile dump *)

(** the list [readlines()] returns for a text given line by line *)
Definition readlines (text : list string) : list string :=
  (fun l => l +:+ nl) <$> text.

Definition header_text : list string :=
  ["2 5"; "Wed Oct 21 22:50:28 UTC 2015"].

(** two snapshots whose interval markers carry the numbers 0 and 5 *)
Definition log_with_gap : list string :=
  readlines (header_text ++
    ["=== Interval 0 stats ===";
     "      Duration : 5 secs";
     "     BytesRead : 0";
     "  BytesWritten : 0";
     "READ                  10      100.00 us      50.00 us      200.00 us";
     "=== Cumulative stats ===";
     "      Duration : 5 secs";
     "Current open fd's: 1 Max open fd's: 2";
     "=== Interval 5 stats ===";
     "      Duration : 5 secs";
     "     BytesRead : 0";
     "  BytesWritten : 0";
     "READ                  10      100.00 us      50.00 us      200.00 us"]).

(** an interval block followed by the marker spelt "Cumulative Stats" *)
Definition lines_capital_stats : list string :=
  ["=== Interval 0 stats ==="; "Cumulative Stats:"].

(** a cumulative block that the next interval marker ends, with no
    "Current open fd" line in between *)
Definition lines_unclosed_cumulative : list string :=
  ["=== Interval 0 stats ==="; "=== Cumulative stats ===";
   "=== Interval 1 stats ==="].

(** one complete snapshot, back in the neutral state *)
Definition lines_one_snapshot : list string :=
  ["=== Interval 0 stats ===";
   "Duration : 5 secs";
   "=== Cumulative stats ===";
   "Duration : 5 secs";
   "Current open fd's: 1 Max open fd's: 2"].

(** ** The frame of the aggregation *)

(** two records that agree on everything the parser stored *)
Definition same_raw (p q : FopProfile) : Prop :=
  avg_lat p = avg_lat q /\ min_lat p = min_lat q /\
  max_lat p = max_lat q /\ calls p = calls q.

(** two dictionaries with the same keys and, key by key, records that agree
    except for [pct_lat] *)
Definition same_raw_maps (m m' : gmap string FopProfile) : Prop :=
  forall name, option_Forall2 same_raw (m !! name) (m' !! name).

Definition same_raw_interval (iv iv' : ProfileInterval) : Prop :=
  bytes_read iv = bytes_read iv' /\
  bytes_written iv = bytes_written iv' /\
  duration iv = duration iv' /\
  same_raw_maps (fop_profiles iv) (fop_profiles iv').

(** ** The percentage latency as the design document words it (4.2) *)

(** the operations of an interval in the fixed sorted name order *)
Definition spec_ops (names : list string) (fops : gmap string FopProfile)
  : list FopProfile :=
  omap (fun name => fops !! name) names.

(** steps 1 and 2: [total_avg_latency_weighted] and [total_calls] *)
Definition spec_weighted_sum (ops : list FopProfile) : float :=
  fold_left (fun s op => fadd s (fmul (avg_lat op) (calls op))) ops fzero.
Definition spec_total_calls (ops : list FopProfile) : float :=
  fold_left (fun s op => fadd s (calls op)) ops fzero.

(** step 3: [combined_avg_latency], 0 when [total_calls == 0] *)
Definition spec_combined_avg (ops : list FopProfile) : float :=
  if feqb (spec_total_calls ops) fzero then fzero
  else fdiv (spec_weighted_sum ops) (spec_total_calls ops).

(** step 4: [pct_latency], 0 when the denominator is 0 *)
Definition spec_pct_latency (ops : list FopProfile) (op : FopProfile)
  : float :=
  let denominator := fmul (spec_combined_avg ops) (spec_total_calls ops) in
  if feqb denominator fzero then fzero
  else fdiv (fmul (float_of_Z 100) (fmul (avg_lat op) (calls op)))
         denominator.

(** two snapshots with the operations READ and WRITE; in the first, READ
    has 10 calls of 100 us on average and WRITE 5 calls of 200 us, and
    5,000,000 bytes are written; the second lasts 4 seconds and its READ
    row has no call *)
Definition log_read_write : list string :=
  readlines (header_text ++
    ["=== Interval 0 stats ===";
     "      Duration : 5 secs";
     "     BytesRead : 1000";
     "  BytesWritten : 5000000";
     "Fop           Call Count    Avg-Latency    Min-Latency    Max-Latency";
     "READ                  10      100.00 us      50.00 us      200.00 us";
     "WRITE                  5      200.00 us     150.00 us      300.00 us";
     "=== Cumulative stats ===";
     "      Duration : 5 secs";
     "READ                  10      100.00 us      50.00 us      200.00 us";
     "Current open fd's: 1 Max open fd's: 2";
     "=== Interval 1 stats ===";
     "      Duration : 4 secs";
     "     BytesRead : 0";
     "  BytesWritten : 5000000";
     "READ                   0        0.00 us       0.00 us        0.00 us";
     "WRITE                  4      250.00 us     150.00 us      300.00 us"]).

(** two snapshots; the second has no READ row *)
Definition log_incomplete : list string :=
  readlines (header_text ++
    ["=== Interval 0 stats ===";
     "      Duration : 5 secs";
     "     BytesRead : 1000";
     "  BytesWritten : 2000";
     "READ                  10      100.00 us      50.00 us      200.00 us";
     "WRITE                  5      200.00 us     150.00 us      300.00 us";
     "=== Cumulative stats ===";
     "      Duration : 5 secs";
     "Current open fd's: 1 Max open fd's: 2";
     "=== Interval 1 stats ===";
     "      Duration : 5 secs";
     "     BytesRead : 0";
     "  BytesWritten : 2000";
     "WRITE                  4      250.00 us     150.00 us      300.00 us"]).

(** the value of [parse_input] on a log, for the examples *)
Definition parsed (file_lines : list string) : globals :=
  match parse_input (B := decimal_builtins) file_lines with
  | Ok g => g
  | Raise _ => mkGlobals fzero 0 0 [] []
  end.

(** ** The byte rate as the design document words it (4.3):
    [bytes / duration_seconds / 1,000,000] *)
Definition spec_byte_rate (bytes duration_seconds : Z) : float :=
  fdiv (fdiv (float_of_Z bytes) (float_of_Z duration_seconds))
    (float_of_Z 1000000).

(** ** Predicates of the further properties *)

(** the lines the loop takes for an interval marker *)
Definition is_interval_marker (ln : string) : bool :=
  match classify ln with IntervalMarker => true | _ => false end.

(** the number of operation records stored in a list of intervals *)
Definition total_records (ivs : list ProfileInterval) : nat :=
  sum_list_with (fun iv => size (fop_profiles iv)) ivs.

(** every interval has a record for every observed name *)
Definition complete (g : globals) : Prop :=
  forall i iv name,
    g_intervals g !! i = Some iv -> name ∈ sorted_fop_names g ->
    is_Some (fop_profiles iv !! name).

(** the statistics whose field is a formatted latency or percentage *)
Definition latency_stat (stat : string) : Prop :=
  stat = "pct-lat" \/ stat = "avg-lat" \/ stat = "min-lat" \/
  stat = "max-lat".

(** the denominator that [gen_per_fop_stats] passes to [get_pct_lat] for
    an interval: [all_fop_profile.avg_lat * all_fop_profile.calls] *)
Definition total_lat_of (names : list string)
  (fops : gmap string FopProfile) : float :=
  fmul (spec_combined_avg (spec_ops names fops))
    (spec_total_calls (spec_ops names fops)).

Section Reachable.
Context `{B : Builtins}.

(** a state of the loop of [parse_input]: reached from the initial state
    by reading some lines *)
Definition reachable (esi : Z) (st : parse_state) : Prop :=
  exists lines, parse_lines esi init_state lines = Ok st.


(** a line of a cumulative block that the loop reads without effect: a
    byte counter, a line without marker, or a "Duration :" line whose
    number is readable *)
Definition skipped_in_cumulative (ln : string) : Prop :=
  classify ln = BytesReadLine \/ classify ln = BytesWrittenLine \/
  classify ln = NoMarker \/
  (classify ln = DurationLine /\
   exists d, int_token (String.words ln) 2 = Ok d).

End Reachable.
(** * Properties *)

(** ** Formatting *)

Example fmt_f_examples :
  fmt_f 3 (float_of_Z 1) = "1.000" /\
  fmt_f 0 (fdiv (float_of_Z 5) (float_of_Z 2)) = "2" /\
  fmt_f 0 (fdiv (float_of_Z 7) (float_of_Z 2)) = "4" /\
  fmt_f 2 (fdiv (float_of_Z (-1)) (float_of_Z 3)) = "-0.33" /\
  fmt_f 2 (fdiv (float_of_Z 1) (float_of_Z 1000)) = "0.00" /\
  fmt_d (fdiv (float_of_Z (-7)) (float_of_Z 2)) = Ok "-3".
Proof. vm_compute. repeat split. Qed.

(** ** The error monad and Python indexing *)

Lemma bind_Ok {A B} (r : result A) (k : A -> result B) (b : B) :
  r ≫= k = Ok b -> exists a, r = Ok a /\ k a = Ok b.
Proof. destruct r; simpl; [eauto | discriminate]. Qed.

Lemma bind_Raise {A B} (r : result A) (k : A -> result B) (e : py_error) :
  r = Raise e -> r ≫= k = Raise e.
Proof. now intros ->. Qed.

Ltac inv_bind :=
  repeat match goal with
         | H : _ ≫= _ = Ok _ |- _ =>
             let a := fresh "a" in
             let E := fresh "E" in
             apply bind_Ok in H as (a & E & H)
         end.




Lemma py_getitem_Ok {A} (l : list A) (i : Z) (x : A) :
  py_getitem l i = Ok x ->
  exists n, py_index l i = Ok n /\ l !! n = Some x.
Proof.
  unfold py_getitem. intros H. inv_bind. exists a. split; [done|].
  destruct (l !! a); simpl in H; congruence.
Qed.

Lemma py_getitem_nat {A} (l : list A) (j : nat) (x : A) :
  l !! j = Some x -> py_getitem l (Z.of_nat j) = Ok x.
Proof.
  intros H. pose proof (lookup_lt_Some _ _ _ H) as Hlt.
  unfold py_getitem, py_index.
  replace ((0 <=? Z.of_nat j) && (Z.of_nat j <? Z.of_nat (length l)))
    with true.
  - simpl. now rewrite Nat2Z.id, H.
  - symmetry. apply andb_true_iff. split; [apply Z.leb_le|apply Z.ltb_lt]; lia.
Qed.

(** ** Parser: one step *)

(** the [raise] statement of a repeated row never falls through *)
Lemma raise_fop_already_defined_not_Ok {A} name iv (x : A) :
  raise_fop_already_defined name iv <> Ok x.
Proof.
  unfold raise_fop_already_defined. by destruct (ProfileInterval_str iv).
Qed.


Ltac no_fall_through :=
  match goal with
  | H : raise_fop_already_defined _ _ = Ok _ |- _ =>
      by apply raise_fop_already_defined_not_Ok in H
  end.

Section ParserFacts.
Context `{B : Builtins}.

Lemma update_current_Ok f st st' :
  update_current f st = Ok st' ->
  exists n p, py_index (intervals st) (intvl st) = Ok n /\
              intervals st !! n = Some p /\
              st' = with_intervals (<[n := f p]> (intervals st)) st.
Proof.
  unfold update_current. intros H. inv_bind.
  destruct (intervals st !! a) eqn:El; simpl in E0; [|discriminate].
  injection E0 as <-. injection H as <-. eauto.
Qed.

Lemma parse_lines_app esi st l1 l2 :
  parse_lines esi st (l1 ++ l2) =
  parse_lines esi st l1 ≫= fun st' => parse_lines esi st' l2.
Proof.
  revert st. induction l1 as [|ln l1 IH]; intros st; simpl; [done|].
  destruct (parse_line esi st ln); simpl; [apply IH | done].
Qed.

Lemma parse_lines_raises_app esi st l1 l2 :
  raises (parse_lines esi st l1) -> raises (parse_lines esi st (l1 ++ l2)).
Proof.
  intros [e He]. rewrite parse_lines_app, He. by exists e.
Qed.

Lemma counters_inv_init : counters_inv init_state.
Proof. split; reflexivity. Qed.

Lemma counters_inv_step esi st ln st' :
  counters_inv st -> parse_line esi st ln = Ok st' -> counters_inv st'.
Proof.
  intros [H1 H2]. unfold parse_line.
  destruct (classify ln); intros H.
  - inv_bind. injection H as <-. split; simpl; [lia|].
    rewrite length_app. simpl. lia.
  - injection H as <-. by split.
  - inv_bind. destruct (found_interval_output st).
    + apply update_current_Ok in H as (n & p & _ & _ & ->).
      destruct (1 <? _); split; simpl; rewrite ?length_insert; done.
    + injection H as <-. by split.
  - destruct (found_interval_output st).
    + inv_bind. apply update_current_Ok in H as (n & p & _ & _ & ->).
      split; simpl; rewrite ?length_insert; done.
    + injection H as <-. by split.
  - destruct (found_interval_output st).
    + inv_bind. apply update_current_Ok in H as (n & p & _ & _ & ->).
      split; simpl; rewrite ?length_insert; done.
    + injection H as <-. by split.
  - injection H as <-. by split.
  - injection H as <-. by split.
  - destruct (found_interval_output st && all_caps_name_match ln).
    + inv_bind. destruct (fop_profiles a !! a0); [no_fall_through|].
      apply update_current_Ok in H as (n & p & _ & _ & ->).
      split; simpl; rewrite ?length_insert; done.
    + injection H as <-. by split.
Qed.

Lemma counters_inv_run esi st lines st' :
  counters_inv st -> parse_lines esi st lines = Ok st' -> counters_inv st'.
Proof.
  revert st. induction lines as [|ln lines IH]; intros st Hinv H; simpl in H.
  - by injection H as <-.
  - inv_bind. eauto using counters_inv_step.
Qed.


End ParserFacts.

(** ** Parser: names, blocks and flags *)

Section ParserBlocks.
Context `{B : Builtins}.

Lemma py_getitem_0 {A} (l : list A) :
  py_getitem l 0 = of_option IndexError (head l).
Proof. destruct l; reflexivity. Qed.

Lemma exists_interval_insert (l : list ProfileInterval) n p q name :
  l !! n = Some p ->
  (is_Some (fop_profiles q !! name) <-> is_Some (fop_profiles p !! name)) ->
  (exists i iv, <[n := q]> l !! i = Some iv /\
                is_Some (fop_profiles iv !! name)) <->
  (exists i iv, l !! i = Some iv /\ is_Some (fop_profiles iv !! name)).
Proof.
  intros Hn Hq. pose proof (lookup_lt_Some _ _ _ Hn) as Hlt. split.
  - intros (i & iv & Hi & Hs). apply list_lookup_insert_Some in Hi.
    destruct Hi as [(<- & <- & _)|[Hne Hi]].
    + exists n, p. split; [done | by apply Hq].
    + by exists i, iv.
  - intros (i & iv & Hi & Hs). destruct (decide (n = i)) as [->|Hne].
    + exists i, q. rewrite list_lookup_insert_eq by done.
      split; [done|]. apply Hq. congruence.
    + exists i, iv. by rewrite list_lookup_insert_ne.
Qed.

Lemma names_inv_same_maps st n p q st0 :
  intervals st0 = <[n := q]> (intervals st) ->
  fop_names st0 = fop_names st ->
  names_inv st -> intervals st !! n = Some p ->
  fop_profiles q = fop_profiles p ->
  names_inv st0.
Proof.
  unfold names_inv. intros Hl Hnames Hinv Hn Hf name.
  rewrite Hnames, Hl, Hinv. symmetry.
  apply (exists_interval_insert _ n p); [done | by rewrite Hf].
Qed.

Lemma names_inv_init : names_inv init_state.
Proof.
  intros name. split.
  - intros H. by apply not_elem_of_empty in H.
  - intros (i & iv & Hi & _). simpl in Hi. by rewrite lookup_nil in Hi.
Qed.

Lemma names_inv_step esi st ln st' :
  names_inv st -> parse_line esi st ln = Ok st' -> names_inv st'.
Proof.
  intros Hinv. unfold parse_line.
  destruct (classify ln); intros H.
  - inv_bind. injection H as <-. unfold names_inv in *.
    intros name. simpl. rewrite (Hinv name).
    split; intros (i & iv & Hi & Hs).
    + exists i, iv. split; [|done]. apply lookup_app_Some. by left.
    + apply lookup_app_Some in Hi as [Hi|[_ Hi]]; [by eauto|].
      apply list_lookup_singleton_Some in Hi as [_ <-].
      simpl in Hs. rewrite lookup_empty in Hs. by destruct Hs.
  - by injection H as <-.
  - inv_bind. destruct (found_interval_output st).
    + apply update_current_Ok in H as (n & p & _ & Hn & ->).
      destruct (1 <? _);
        (eapply names_inv_same_maps;
         [reflexivity|reflexivity|exact Hinv|exact Hn|reflexivity]).
    + by injection H as <-.
  - destruct (found_interval_output st).
    + inv_bind. apply update_current_Ok in H as (n & p & _ & Hn & ->).
      eapply names_inv_same_maps;
        [reflexivity|reflexivity|exact Hinv|exact Hn|reflexivity].
    + by injection H as <-.
  - destruct (found_interval_output st).
    + inv_bind. apply update_current_Ok in H as (n & p & _ & Hn & ->).
      eapply names_inv_same_maps;
        [reflexivity|reflexivity|exact Hinv|exact Hn|reflexivity].
    + by injection H as <-.
  - by injection H as <-.
  - by injection H as <-.
  - destruct (found_interval_output st && all_caps_name_match ln).
    + inv_bind. destruct (fop_profiles a !! a0) eqn:Hfree; [no_fall_through|].
      apply update_current_Ok in H as (n & p & Hidx & Hn & ->).
      unfold names_inv in *. simpl in *. intros name.
      rewrite elem_of_union, elem_of_singleton, (Hinv name).
      split.
      * intros [->|(i & iv & Hi & Hs)].
        -- exists n, (setitem_fop a0 (new_FopProfile a1 a2 a3 a4) p).
           rewrite list_lookup_insert_eq by (by eapply lookup_lt_Some).
           split; [done|]. simpl. rewrite lookup_insert_eq. by eexists.
        -- destruct (decide (n = i)) as [->|Hne].
           ++ exists i, (setitem_fop a0 (new_FopProfile a1 a2 a3 a4) p).
              rewrite list_lookup_insert_eq by (by eapply lookup_lt_Some).
              split; [done|]. simpl. rewrite lookup_insert.
              case_decide; [by eexists | congruence].
           ++ exists i, iv. by rewrite list_lookup_insert_ne.
      * intros (i & iv & Hi & Hs).
        apply list_lookup_insert_Some in Hi.
        destruct Hi as [(<- & <- & _)|[Hne Hi]].
        -- simpl in Hs. rewrite lookup_insert in Hs.
           case_decide; [by left | right; by exists n, p].
        -- right. by exists i, iv.
    + by injection H as <-.
Qed.

Lemma names_inv_run esi st lines st' :
  names_inv st -> parse_lines esi st lines = Ok st' -> names_inv st'.
Proof.
  revert st. induction lines as [|ln lines IH]; intros st Hinv H; simpl in H.
  - by injection H as <-.
  - inv_bind. eauto using names_inv_step.
Qed.

End ParserBlocks.

Section ParserClaims.
Context `{B : Builtins}.










End ParserClaims.

(** ** The message of the repeated row *)

Lemma py_int_of_float_finite x :
  is_finite x = true -> exists z, py_int_of_float x = Ok z.
Proof. destruct x; simpl; intros H; try discriminate; by eexists. Qed.

Lemma py_int_of_float_Raise x e :
  py_int_of_float x = Raise e ->
  is_finite x = false /\
  (is_nan x = true /\ e = ValueError \/
   is_nan x = false /\ e = OverflowError).
Proof.
  destruct x; simpl; intros H; try discriminate; injection H as <-; auto.
Qed.

Lemma FopProfile_str_finite p :
  is_finite (calls p) = true -> exists s, FopProfile_str p = Ok s.
Proof.
  intros H. unfold FopProfile_str.
  destruct (py_int_of_float_finite _ H) as [z ->]. by eexists.
Qed.

Lemma FopProfile_str_Raise p e :
  FopProfile_str p = Raise e ->
  is_finite (calls p) = false /\
  (is_nan (calls p) = true /\ e = ValueError \/
   is_nan (calls p) = false /\ e = OverflowError).
Proof.
  unfold FopProfile_str.
  destruct (py_int_of_float (calls p)) as [z|e'] eqn:E; simpl;
    [discriminate|].
  intros H. injection H as <-. by apply py_int_of_float_Raise.
Qed.

Lemma str_fop_items_finite items :
  Forall (fun item => is_finite (calls item.2) = true) items ->
  exists l, str_fop_items items = Ok l.
Proof.
  induction 1 as [|[f p] items Hp _ [l IH]]; simpl; [by eexists|].
  simpl in Hp. destruct (FopProfile_str_finite _ Hp) as [s ->]. simpl.
  rewrite IH.
  by eexists.
Qed.

(** the list of the records is formatted in order: the first record whose
    call count is not finite decides the exception *)
Lemma str_fop_items_first pre f p post :
  Forall (fun item => is_finite (calls item.2) = true) pre ->
  is_finite (calls p) = false ->
  str_fop_items (pre ++ (f, p) :: post) =
  Raise (if is_nan (calls p) then ValueError else OverflowError).
Proof.
  intros Hpre Hp. induction Hpre as [|[f' p'] pre Hp' _ IH]; simpl.
  - unfold FopProfile_str. destruct (calls p); simpl in *; done.
  - simpl in Hp'. destruct (FopProfile_str_finite _ Hp') as [s ->]. simpl.
    by rewrite IH.
Qed.

Lemma str_fop_items_Raise items e :
  str_fop_items items = Raise e -> e = ValueError \/ e = OverflowError.
Proof.
  induction items as [|[f p] items IH]; simpl; [discriminate|].
  destruct (FopProfile_str p) as [s|e'] eqn:E; simpl.
  - destruct (str_fop_items items) as [l|e'']; simpl; [discriminate|].
    intros H. injection H as <-. by apply IH.
  - intros H. injection H as <-.
    apply FopProfile_str_Raise in E as [_ [[_ ->]|[_ ->]]]; auto.
Qed.

Lemma fop_items_lookup iv f p :
  (f, p) ∈ fop_items iv -> fop_profiles iv !! f = Some p.
Proof.
  unfold fop_items. intros H. apply list_elem_of_omap in H as (f' & _ & H).
  destruct (fop_profiles iv !! f') as [p'|] eqn:E; simpl in H; [|done].
  by injection H as <- <-.
Qed.

Lemma fop_items_finite iv :
  finite_calls iv ->
  Forall (fun item => is_finite (calls item.2) = true) (fop_items iv).
Proof.
  intros H. apply Forall_forall. intros [f p] Hin. simpl.
  apply (H f). by apply fop_items_lookup.
Qed.

Lemma ProfileInterval_str_Raise iv e :
  ProfileInterval_str iv = Raise e -> formatting_error e.
Proof.
  unfold ProfileInterval_str, formatting_error.
  destruct (str_fop_items (fop_items iv)) as [l|e'] eqn:E; simpl.
  - destruct (bytes_read iv); simpl; [|intros H; injection H as <-; auto].
    destruct (bytes_written iv); simpl; [discriminate|].
    intros H; injection H as <-; auto.
  - intros H. injection H as <-.
    apply str_fop_items_Raise in E as [->| ->]; auto.
Qed.

(** which exception the [raise] statement of a repeated row ends with *)
Lemma raise_fop_already_defined_cases {A} name iv :
  (exists e, raise_fop_already_defined (A := A) name iv = Raise e /\
             (e = FopAlreadyDefined name \/ formatting_error e)) /\
  (finite_calls iv ->
   is_Some (bytes_read iv) -> is_Some (bytes_written iv) ->
   raise_fop_already_defined (A := A) name iv =
   Raise (FopAlreadyDefined name)) /\
  (finite_calls iv ->
   bytes_read iv = None \/ bytes_written iv = None ->
   raise_fop_already_defined (A := A) name iv = Raise TypeError) /\
  (forall pre f p post,
     fop_items iv = pre ++ (f, p) :: post ->
     Forall (fun item => is_finite (calls item.2) = true) pre ->
     is_finite (calls p) = false ->
     raise_fop_already_defined (A := A) name iv =
     Raise (if is_nan (calls p) then ValueError else OverflowError)).
Proof.
  unfold raise_fop_already_defined. split; [|split; [|split]].
  - destruct (ProfileInterval_str iv) as [x|e] eqn:E.
    + eexists. split; [done|]. by left.
    + exists e. split; [done|]. right. by eapply ProfileInterval_str_Raise.
  - intros Hfin [r Hr] [w Hw]. unfold ProfileInterval_str.
    destruct (str_fop_items_finite _ (fop_items_finite _ Hfin)) as [l ->].
    by rewrite Hr, Hw.
  - intros Hfin Hnone. unfold ProfileInterval_str.
    destruct (str_fop_items_finite _ (fop_items_finite _ Hfin)) as [l ->].
    simpl. destruct Hnone as [-> | ->]; [done|].
    by destruct (bytes_read iv).
  - intros pre f p post Hitems Hpre Hp. unfold ProfileInterval_str.
    by rewrite Hitems, (str_fop_items_first _ _ _ _ Hpre Hp).
Qed.

Section ParserTheorems.
Context `{B : Builtins}.








Lemma duration_outside_block esi st ln :
  classify ln = DurationLine ->
  found_interval_output st = false -> found_cumulative_output st = false ->
  parse_line esi st ln = Raise AssertionError.
Proof.
  intros Hc Hi Hcum. unfold parse_line. now rewrite Hc, Hi, Hcum.
Qed.

Lemma sets_no_flag_step esi st ln :
  found_interval_output st = false -> found_cumulative_output st = false ->
  sets_no_flag ln -> parse_line esi st ln = Ok st.
Proof.
  intros Hi Hcum Hln. unfold parse_line.
  destruct Hln as [-> | [-> | [-> | ->]]]; rewrite ?Hi; simpl; try done.
  destruct st; simpl in *; by subst.
Qed.

Lemma sets_no_flag_run esi st lines :
  found_interval_output st = false -> found_cumulative_output st = false ->
  Forall sets_no_flag lines -> parse_lines esi st lines = Ok st.
Proof.
  intros Hi Hcum Hl. induction Hl as [|ln lines Hln _ IH]; simpl; [done|].
  now rewrite sets_no_flag_step.
Qed.

Lemma parse_lines_cons esi st ln rest :
  parse_lines esi st (ln :: rest) =
  parse_line esi st ln ≫= fun st' => parse_lines esi st' rest.
Proof. reflexivity. Qed.

Lemma ret_bind {A C} (a : A) (k : A -> result C) : Ok a ≫= k = k a.
Proof. reflexivity. Qed.

Lemma current_open_fd_step esi st fd :
  classify fd = CurrentOpenFd ->
  parse_line esi st fd = Ok (with_flags false (found_interval_output st) st).
Proof. intros Hfd. unfold parse_line. now rewrite Hfd. Qed.

(** C10: a "Duration :" line read while neither flag is set fails the
    assertion on the exclusive-or of the flags, whatever follows; this is
    the case before the first interval marker and after a "Current open fd"
    line that follows a closed interval block. *)
Theorem C10_duration_outside_any_block esi st0 pre st ln post :
  parse_lines esi st0 pre = Ok st ->
  found_interval_output st = false ->
  found_cumulative_output st = false ->
  classify ln = DurationLine ->
  parse_line esi st ln = Raise AssertionError /\
  parse_lines esi st0 (pre ++ ln :: post) = Raise AssertionError /\
  (forall first_lines,
     Forall sets_no_flag first_lines ->
     parse_lines esi init_state (first_lines ++ ln :: post)
     = Raise AssertionError) /\
  (forall lines st1 fd,
     parse_lines esi st0 lines = Ok st1 ->
     found_interval_output st1 = false ->
     classify fd = CurrentOpenFd ->
     parse_lines esi st0 (lines ++ fd :: ln :: post) = Raise AssertionError).
Proof.
  intros Hpre Hi Hcum Hc.
  pose proof (duration_outside_block esi st ln Hc Hi Hcum) as Hstep.
  split; [done|]. split; [|split].
  - rewrite parse_lines_app, Hpre. simpl. now rewrite Hstep.
  - intros first_lines Hfirst. rewrite parse_lines_app.
    rewrite sets_no_flag_run by done. simpl.
    now rewrite duration_outside_block.
  - intros lines st1 fd Hlines Hi1 Hfd.
    rewrite parse_lines_app, Hlines.
    change (parse_lines esi st1 (fd :: ln :: post)
            = Raise AssertionError).
    rewrite parse_lines_cons, (current_open_fd_step _ _ _ Hfd), ret_bind.
    rewrite parse_lines_cons.
    now rewrite duration_outside_block.
Qed.

End ParserTheorems.

(** ** The iteration order of the dictionaries *)

Lemma str_fop_items_Ok items l :
  str_fop_items items = Ok l ->
  Forall (fun item => is_finite (calls item.2) = true) items.
Proof.
  revert l. induction items as [|[f p] items IH]; intros l H; [done|].
  simpl in H.
  destruct (FopProfile_str p) as [s|] eqn:Hs; simpl in H; [|discriminate].
  destruct (str_fop_items items) as [l'|]; simpl in H; [|discriminate].
  constructor; [|by eapply IH]. simpl.
  destruct (is_finite (calls p)) eqn:Hfin; [done|].
  unfold FopProfile_str in Hs. by destruct (calls p).
Qed.

Lemma ProfileInterval_str_Ok iv x :
  ProfileInterval_str iv = Ok x ->
  Forall (fun item => is_finite (calls item.2) = true) (fop_items iv) /\
  is_Some (bytes_read iv) /\ is_Some (bytes_written iv).
Proof.
  unfold ProfileInterval_str.
  destruct (str_fop_items (fop_items iv)) as [l|] eqn:Hl; simpl;
    [|discriminate].
  destruct (bytes_read iv); simpl; [|discriminate].
  destruct (bytes_written iv); simpl; [|discriminate].
  intros _. split; [by eapply str_fop_items_Ok|]. by split; eexists.
Qed.

Lemma fop_items_elem iv f p :
  dict_inv iv -> fop_profiles iv !! f = Some p -> (f, p) ∈ fop_items iv.
Proof.
  intros [_ Hkeys] Hp. unfold fop_items. apply list_elem_of_omap.
  exists f. split; [apply Hkeys; by eexists|]. by rewrite Hp.
Qed.

(** for a dictionary whose keys are listed, the "already defined"
    exception is raised exactly when the message can be built *)
Lemma raise_fop_already_defined_iff {A} name iv e :
  dict_inv iv ->
  raise_fop_already_defined (A := A) name iv = Raise e ->
  (e = FopAlreadyDefined name <->
   finite_calls iv /\ is_Some (bytes_read iv) /\ is_Some (bytes_written iv)).
Proof.
  intros Hinv He. split.
  - intros ->. unfold raise_fop_already_defined in He.
    destruct (ProfileInterval_str iv) as [x|e'] eqn:Hstr.
    + apply ProfileInterval_str_Ok in Hstr as (Hitems & Hr & Hw).
      split; [|done]. intros f p Hp.
      apply (proj1 (Forall_forall _ _) Hitems (f, p)).
      by apply fop_items_elem.
    + injection He as ->. apply ProfileInterval_str_Raise in Hstr.
      by destruct Hstr as [?|[?|?]].
  - intros (Hfin & Hr & Hw).
    destruct (raise_fop_already_defined_cases (A := A) name iv)
      as (_ & Hmsg & _). rewrite (Hmsg Hfin Hr Hw) in He. congruence.
Qed.

Lemma dict_inv_new : dict_inv new_ProfileInterval.
Proof.
  split; [constructor|]. intros f. simpl. rewrite lookup_empty. split.
  - intros H. by apply elem_of_nil in H.
  - by intros [? ?].
Qed.

Lemma dict_inv_same p q :
  dict_inv p -> fop_profiles q = fop_profiles p ->
  fop_order q = fop_order p -> dict_inv q.
Proof. intros [H1 H2] Hm Ho. unfold dict_inv. by rewrite Hm, Ho. Qed.

Lemma dict_inv_setitem key value p :
  dict_inv p -> dict_inv (setitem_fop key value p).
Proof.
  intros [Hnd Hkeys]. unfold dict_inv, setitem_fop. simpl.
  destruct (fop_profiles p !! key) as [old|] eqn:Hold.
  - split; [done|]. intros f. rewrite lookup_insert_is_Some, Hkeys. split.
    + intros H. destruct (decide (key = f)); [by left | by right].
    + intros [<- | [_ H]]; [by rewrite Hold | done].
  - split.
    + apply NoDup_app. split; [done|]. split; [|apply NoDup_singleton].
      intros f Hf Hin. apply list_elem_of_singleton in Hin as ->.
      apply Hkeys in Hf. rewrite Hold in Hf. by destruct Hf.
    + intros f.
      rewrite elem_of_app, list_elem_of_singleton, lookup_insert_is_Some,
        Hkeys.
      split.
      * intros [H | ->]; [|by left].
        destruct (decide (key = f)); [by left | by right].
      * intros [<- | [_ H]]; [by right | by left].
Qed.

Section DictOrder.
Context `{B : Builtins}.

Lemma dict_inv_update f st st' :
  (forall p, dict_inv p -> dict_inv (f p)) ->
  Forall dict_inv (intervals st) ->
  update_current f st = Ok st' -> Forall dict_inv (intervals st').
Proof.
  intros Hf Hinv H. apply update_current_Ok in H as (n & p & _ & Hn & ->).
  simpl. apply Forall_insert; [done|]. apply Hf.
  by eapply Forall_lookup_1.
Qed.

Lemma dict_inv_step esi st ln st' :
  Forall dict_inv (intervals st) -> parse_line esi st ln = Ok st' ->
  Forall dict_inv (intervals st').
Proof.
  intros Hinv. unfold parse_line.
  assert (forall g : ProfileInterval -> ProfileInterval,
            (forall p, fop_profiles (g p) = fop_profiles p /\
                       fop_order (g p) = fop_order p) ->
            forall p, dict_inv p -> dict_inv (g p)) as Hsame.
  { intros g Hg p Hp. destruct (Hg p). by eapply dict_inv_same. }
  destruct (classify ln); intros H.
  - inv_bind. injection H as <-. simpl. apply Forall_app. split; [done|].
    constructor; [apply dict_inv_new | constructor].
  - by injection H as <-.
  - inv_bind. destruct (found_interval_output st).
    + destruct (1 <? _);
        (eapply dict_inv_update; [| |exact H];
         [by apply Hsame | exact Hinv]).
    + by injection H as <-.
  - destruct (found_interval_output st).
    + inv_bind. eapply dict_inv_update; [|exact Hinv|exact H].
      by apply Hsame.
    + by injection H as <-.
  - destruct (found_interval_output st).
    + inv_bind. eapply dict_inv_update; [|exact Hinv|exact H].
      by apply Hsame.
    + by injection H as <-.
  - by injection H as <-.
  - by injection H as <-.
  - destruct (found_interval_output st && all_caps_name_match ln).
    + inv_bind. destruct (fop_profiles a !! a0); [no_fall_through|].
      eapply dict_inv_update; [| |exact H]; [|exact Hinv].
      intros p. apply dict_inv_setitem.
    + by injection H as <-.
Qed.

(** in every state of the loop, the list of keys of each interval is that
    of its dictionary *)
Lemma dict_inv_reachable esi st :
  reachable esi st -> Forall dict_inv (intervals st).
Proof.
  intros [lines Hrun].
  assert (Forall dict_inv (intervals init_state)) as Hinit by constructor.
  revert Hrun Hinit. generalize init_state.
  induction lines as [|ln lines IH]; intros st0 Hrun Hinit; simpl in Hrun.
  - by injection Hrun as <-.
  - inv_bind. eapply IH; [exact Hrun|]. by eapply dict_inv_step.
Qed.

End DictOrder.

(** ** Parser: the claims at concrete logs *)



(** the repeated row at two logs: read after the byte counters, it ends
    the run with the "already defined" exception; read before them, with
    the [TypeError] of the message *)
Example repeated_row_exceptions :
  parse_lines (B := decimal_builtins) 5 init_state
    ["=== Interval 0 stats ==="; "BytesRead : 0"; "BytesWritten : 0";
     "READ 10 100.00 us 50.00 us 200.00 us";
     "READ 3 1.00 us 1.00 us 1.00 us"]
  = Raise (FopAlreadyDefined "READ") /\
  parse_lines (B := decimal_builtins) 5 init_state
    ["=== Interval 0 stats ===";
     "READ 10 100.00 us 50.00 us 200.00 us";
     "READ 3 1.00 us 1.00 us 1.00 us"]
  = Raise TypeError /\
  parse_lines (B := decimal_builtins) 5 init_state
    ["=== Interval 0 stats ==="; "BytesRead : 0";
     "READ 10 100.00 us 50.00 us 200.00 us";
     "READ 3 1.00 us 1.00 us 1.00 us"]
  = Raise TypeError.
Proof. repeat split; vm_compute; reflexivity. Qed.

(** call counts that are not finite: the record that comes first in the
    dictionary decides between [OverflowError] and [ValueError], before
    the byte counters are looked at *)
Example repeated_row_call_counts :
  let inf := new_FopProfile fzero fzero fzero (S754_infinity false) in
  let nan := new_FopProfile fzero fzero fzero S754_nan in
  let iv := setitem_fop "WRITE" nan
              (setitem_fop "READ" inf new_ProfileInterval) in
  let iv' := setitem_fop "READ" inf
               (setitem_fop "WRITE" nan new_ProfileInterval) in
  raise_fop_already_defined (A := parse_state) "READ" iv
  = Raise OverflowError /\
  raise_fop_already_defined (A := parse_state) "READ" iv'
  = Raise ValueError /\
  raise_fop_already_defined (A := parse_state) "READ"
    (set_bytes_written 0 (set_bytes_read 0 iv'))
  = Raise ValueError.
Proof. repeat split; vm_compute; reflexivity. Qed.

Lemma C10_duration_witness :
  parse_lines (B := decimal_builtins) 5 init_state
    (lines_one_snapshot ++ "Duration : 7 secs" :: ["BytesRead : 0"])
  = Raise AssertionError.
Proof.
  refine (proj1 (proj2 (C10_duration_outside_any_block
                          (B := decimal_builtins) 5 init_state
                          lines_one_snapshot _ "Duration : 7 secs"
                          ["BytesRead : 0"] _ _ _ _))).
  - vm_compute. reflexivity.
  - reflexivity.
  - reflexivity.
  - reflexivity.
Defined.

(** C2: the number of an interval marker is read and never compared: a
    log whose markers are numbered 0 and 5 parses, and yields two intervals
    at the positions 0 and 1. *)
Theorem C2_interval_number_is_not_checked :
  exists g, parse_input (B := decimal_builtins) log_with_gap = Ok g /\
            length (g_intervals g) = 2%nat /\
            duration <$> g_intervals g = [Some 5; Some 5].
Proof. eexists. split; [vm_compute; reflexivity|]. split; reflexivity. Qed.

(** C6: after an interval block, the marker "Cumulative Stats" leaves both
    flags set, and so does an interval marker that follows "Cumulative
    stats" directly; a "Duration :" line then fails the assertion. *)
Theorem C6_both_flags_set :
  (exists st,
     parse_lines (B := decimal_builtins) 5 init_state lines_capital_stats
     = Ok st /\
     found_interval_output st = true /\ found_cumulative_output st = true) /\
  parse_lines (B := decimal_builtins) 5 init_state
    (lines_capital_stats ++ ["Duration : 5 secs"]) = Raise AssertionError /\
  (exists st,
     parse_lines (B := decimal_builtins) 5 init_state
       lines_unclosed_cumulative = Ok st /\
     found_interval_output st = true /\ found_cumulative_output st = true).
Proof.
  split; [|split].
  - eexists. split; [vm_compute; reflexivity|]. split; reflexivity.
  - vm_compute. reflexivity.
  - eexists. split; [vm_compute; reflexivity|]. split; reflexivity.
Qed.

(** ** Aggregator: the frame *)

Lemma same_raw_refl p : same_raw p p.
Proof. by repeat split. Qed.

Lemma same_raw_trans p q r : same_raw p q -> same_raw q r -> same_raw p r.
Proof.
  intros (?&?&?&?) (?&?&?&?). repeat split; congruence.
Qed.

Lemma same_raw_get_pct_lat p total : same_raw p (get_pct_lat p total).
Proof. by repeat split. Qed.

Lemma same_raw_maps_refl m : same_raw_maps m m.
Proof.
  intros name. destruct (m !! name); constructor. apply same_raw_refl.
Qed.

Lemma same_raw_maps_trans m1 m2 m3 :
  same_raw_maps m1 m2 -> same_raw_maps m2 m3 -> same_raw_maps m1 m3.
Proof.
  intros H12 H23 name. specialize (H12 name). specialize (H23 name).
  destruct H12 as [p q Hpq|]; inversion H23 as [q' r Hqr|]; subst;
    constructor. by eapply same_raw_trans.
Qed.

Lemma same_raw_maps_insert m fop p q :
  m !! fop = Some p -> same_raw p q -> same_raw_maps m (<[fop := q]> m).
Proof.
  intros Hp Hpq name. rewrite lookup_insert. case_decide as Hd.
  - subst. rewrite Hp. by constructor.
  - apply same_raw_maps_refl.
Qed.

Lemma same_raw_interval_refl iv : same_raw_interval iv iv.
Proof. repeat split. apply same_raw_maps_refl. Qed.

Lemma same_raw_interval_trans a b c :
  same_raw_interval a b -> same_raw_interval b c -> same_raw_interval a c.
Proof.
  intros (?&?&?&?) (?&?&?&?). repeat split; try congruence.
  by eapply same_raw_maps_trans.
Qed.

Lemma columns_loop_frame stat d total names fops cols :
  same_raw_maps fops (columns_loop stat d total names fops cols).1.
Proof.
  revert fops cols. induction names as [|fop rest IH]; intros fops cols.
  - apply same_raw_maps_refl.
  - simpl. destruct (fops !! fop) as [fs|] eqn:Hfs.
    + pose proof (same_raw_maps_insert fops fop fs
                    (get_pct_lat fs total) Hfs
                    (same_raw_get_pct_lat fs total)) as Hins.
      destruct (field2str (get_pct_lat fs total) stat d); simpl; [|done].
      eapply same_raw_maps_trans; [exact Hins | apply IH].
    + apply same_raw_maps_refl.
Qed.

Lemma fop_row_frame pb g stat i iv :
  same_raw_interval iv (fop_row pb g stat i iv).1.
Proof.
  unfold fop_row.
  destruct (accumulate_all _ _ _); [|apply same_raw_interval_refl].
  destruct (timestamp_column _ _ _); [|apply same_raw_interval_refl].
  pose proof (columns_loop_frame stat (duration iv)
                (fmul (avg_lat (normalize_sum a)) (calls (normalize_sum a)))
                (sorted_fop_names g) (fop_profiles iv) []) as Hf.
  destruct (columns_loop _ _ _ _ _ _) as [fops' r]. simpl in *.
  by repeat split.
Qed.

Lemma Forall2_same_raw_insert ivs i p p' :
  ivs !! i = Some p -> same_raw_interval p p' ->
  Forall2 same_raw_interval ivs (<[i := p']> ivs).
Proof.
  intros Hi Hp. apply Forall2_same_length_lookup. split.
  - by rewrite length_insert.
  - intros j x y Hx Hy. apply list_lookup_insert_Some in Hy.
    destruct Hy as [(<- & <- & _)|[_ Hy]].
    + congruence.
    + assert (x = y) as -> by congruence. apply same_raw_interval_refl.
Qed.

Lemma Forall2_same_raw_refl ivs : Forall2 same_raw_interval ivs ivs.
Proof.
  induction ivs; constructor; [apply same_raw_interval_refl | done].
Qed.

Lemma Forall2_same_raw_trans l1 l2 l3 :
  Forall2 same_raw_interval l1 l2 -> Forall2 same_raw_interval l2 l3 ->
  Forall2 same_raw_interval l1 l3.
Proof.
  intros H12. revert l3. induction H12; intros l3 H23; inversion H23; subst;
    constructor; [by eapply same_raw_interval_trans | auto].
Qed.

Lemma fop_rows_frame pb g stat idxs ivs out :
  Forall2 same_raw_interval ivs (fop_rows pb g stat idxs ivs out).1.
Proof.
  revert ivs out. induction idxs as [|i rest IH]; intros ivs out; simpl.
  - apply Forall2_same_raw_refl.
  - destruct (ivs !! i) as [p|] eqn:Hi; [|apply Forall2_same_raw_refl].
    pose proof (fop_row_frame pb g stat i p) as Hp.
    destruct (fop_row pb g stat i p) as [p' r]. simpl in Hp.
    pose proof (Forall2_same_raw_insert ivs i p p' Hi Hp) as Hins.
    destruct r; simpl; [|done].
    eapply Forall2_same_raw_trans; [exact Hins | apply IH].
Qed.

Lemma gen_all_fop_stats_frame pb g stats :
  Forall2 same_raw_interval (g_intervals g)
    (g_intervals (gen_all_fop_stats pb g stats).1) /\
  sorted_fop_names (gen_all_fop_stats pb g stats).1 = sorted_fop_names g.
Proof.
  revert g. induction stats as [|s rest IH]; intros g; simpl.
  - split; [apply Forall2_same_raw_refl | done].
  - pose proof (fop_rows_frame pb g s (seq 0 (length (g_intervals g)))
                  (g_intervals g) (fop_header pb g)) as Hf.
    unfold gen_per_fop_stats.
    destruct (fop_rows _ _ _ _ _ _) as [ivs r]. simpl in Hf.
    destruct r; simpl; [|done].
    destruct (IH (with_g_intervals ivs g)) as [IH1 IH2].
    destruct (gen_all_fop_stats pb (with_g_intervals ivs g) rest)
      as [g'' r']. simpl in *. split; [|done].
    by eapply Forall2_same_raw_trans.
Qed.

Lemma aggregation_frame_core pb g stat :
  Forall2 same_raw_interval (g_intervals g) (gen_per_fop_stats pb g stat).1 /\
  Forall2 same_raw_interval (g_intervals g)
    (g_intervals (generate_output pb g).1).
Proof.
  split.
  - apply fop_rows_frame.
  - unfold generate_output.
    pose proof (gen_all_fop_stats_frame pb g stat_names) as [Hall _].
    destruct (gen_output_bytes pb g); [|apply Forall2_same_raw_refl].
    by destruct (gen_all_fop_stats pb g stat_names).
Qed.

(** C9: a statistic pass leaves the list of intervals with the same length
    and order, every interval with its byte counters, duration and set of
    operation names, and every record with its calls and its average,
    minimum and maximum latency; only [pct_lat] may differ.  This holds
    whether the pass completes or raises, and for the whole sequence of
    passes of [generate_output]. *)
Theorem C9_aggregation_frame pb g stat :
  Forall2 same_raw_interval (g_intervals g) (gen_per_fop_stats pb g stat).1 /\
  length (gen_per_fop_stats pb g stat).1 = length (g_intervals g) /\
  Forall2 same_raw_interval (g_intervals g)
    (g_intervals (generate_output pb g).1).
Proof.
  pose proof (fop_rows_frame pb g stat (seq 0 (length (g_intervals g)))
                (g_intervals g) (fop_header pb g)) as Hf.
  split; [exact Hf|]. split.
  - symmetry. by eapply Forall2_length.
  - unfold generate_output.
    pose proof (gen_all_fop_stats_frame pb g stat_names) as [Hall _].
    destruct (gen_output_bytes pb g); [|apply Forall2_same_raw_refl].
    by destruct (gen_all_fop_stats pb g stat_names).
Qed.

(** ** Aggregator: what a completed pass computed *)

Lemma get_pct_lat_idem p total :
  get_pct_lat (get_pct_lat p total) total = get_pct_lat p total.
Proof. reflexivity. Qed.

Lemma columns_loop_Ok stat d total names fops cols fops' cols' :
  columns_loop stat d total names fops cols = (fops', Ok cols') ->
  forall name,
    (name ∈ names ->
     exists p, fops !! name = Some p /\
               fops' !! name = Some (get_pct_lat p total)) /\
    (name ∉ names -> fops' !! name = fops !! name).
Proof.
  revert fops cols. induction names as [|fop rest IH]; intros fops cols H name.
  - simpl in H. injection H as <- _. split; [|done].
    intros Hin. by apply elem_of_nil in Hin.
  - simpl in H. destruct (fops !! fop) as [fs|] eqn:Hfs; [|discriminate].
    destruct (field2str (get_pct_lat fs total) stat d) as [c|];
      [|discriminate].
    destruct (IH _ _ H name) as [IHin IHout]. split.
    + intros Hin. destruct (decide (name ∈ rest)) as [Hrest|Hrest].
      * destruct (IHin Hrest) as (p1 & Hp1 & Hp').
        rewrite lookup_insert in Hp1. case_decide as Hd.
        -- subst name. injection Hp1 as <-. exists fs. split; [done|].
           by rewrite Hp', get_pct_lat_idem.
        -- by exists p1.
      * apply elem_of_cons in Hin as [->|Hin]; [|done].
        exists fs. split; [done|].
        by rewrite (IHout Hrest), lookup_insert_eq.
    + intros Hout. apply not_elem_of_cons in Hout as [Hne Hrest].
      by rewrite (IHout Hrest), lookup_insert_ne.
Qed.

Lemma accumulate_avg self addend :
  avg_lat (accumulate self addend) =
  fadd (avg_lat self) (fmul (avg_lat addend) (calls addend)).
Proof. unfold accumulate. by destruct (fltb _ _). Qed.

Lemma accumulate_calls self addend :
  calls (accumulate self addend) = fadd (calls self) (calls addend).
Proof. unfold accumulate. by destruct (fltb _ _). Qed.

Lemma accumulate_all_Ok fops names acc acc' :
  accumulate_all fops names acc = Ok acc' ->
  (forall name, name ∈ names -> is_Some (fops !! name)) /\
  avg_lat acc' =
    fold_left (fun s op => fadd s (fmul (avg_lat op) (calls op)))
      (spec_ops names fops) (avg_lat acc) /\
  calls acc' =
    fold_left (fun s op => fadd s (calls op)) (spec_ops names fops)
      (calls acc).
Proof.
  revert acc. induction names as [|fop rest IH]; intros acc H; simpl in H.
  - injection H as <-. split; [|done].
    intros name Hin. by apply elem_of_nil in Hin.
  - destruct (fops !! fop) as [fs|] eqn:Hfs; simpl in H; [|discriminate].
    destruct (IH _ H) as (IH1 & IH2 & IH3).
    unfold spec_ops. simpl. rewrite Hfs. simpl.
    rewrite accumulate_avg in IH2. rewrite accumulate_calls in IH3.
    split; [|done].
    intros name Hin. apply elem_of_cons in Hin as [->|Hin]; [by eexists|].
    by apply IH1.
Qed.

Lemma normalize_sum_avg acc :
  avg_lat (normalize_sum acc) =
  if feqb (calls acc) fzero then fzero else fdiv (avg_lat acc) (calls acc).
Proof.
  unfold normalize_sum, py_truediv. by destruct (feqb (calls acc) fzero).
Qed.

Lemma normalize_sum_calls acc : calls (normalize_sum acc) = calls acc.
Proof.
  unfold normalize_sum, py_truediv. by destruct (feqb (calls acc) fzero).
Qed.

Lemma get_pct_lat_value p total :
  pct_lat (get_pct_lat p total) =
  if feqb total fzero then fzero
  else fdiv (fmul (float_of_Z 100) (fmul (avg_lat p) (calls p))) total.
Proof.
  unfold get_pct_lat, py_truediv. simpl. by destruct (feqb total fzero).
Qed.

Lemma fop_row_Ok pb g stat i iv s :
  (fop_row pb g stat i iv).2 = Ok s ->
  forall name, name ∈ sorted_fop_names g ->
    exists p p',
      fop_profiles iv !! name = Some p /\
      fop_profiles (fop_row pb g stat i iv).1 !! name = Some p' /\
      same_raw p p' /\
      pct_lat p' =
        spec_pct_latency (spec_ops (sorted_fop_names g) (fop_profiles iv)) p.
Proof.
  unfold fop_row.
  destruct (accumulate_all _ _ _) as [acc|] eqn:Hacc; [|discriminate].
  apply accumulate_all_Ok in Hacc as (_ & Havg & Hcalls).
  destruct (timestamp_column _ _ _) as [ts|]; [|discriminate].
  destruct (columns_loop _ _ _ _ _ _) as [fops' r] eqn:Hloop.
  simpl. intros Hr name Hin.
  destruct r as [cols|]; [|discriminate].
  destruct (columns_loop_Ok _ _ _ _ _ _ _ _ Hloop name) as [Hname _].
  destruct (Hname Hin) as (p & Hp & Hp').
  exists p, (get_pct_lat p
               (fmul (avg_lat (normalize_sum acc)) (calls (normalize_sum acc)))).
  split; [done|]. split; [done|]. split; [apply same_raw_get_pct_lat|].
  rewrite get_pct_lat_value, normalize_sum_avg, normalize_sum_calls.
  unfold spec_pct_latency, spec_combined_avg, spec_total_calls,
    spec_weighted_sum.
  simpl in Havg, Hcalls. by rewrite <- Havg, <- Hcalls.
Qed.

Lemma fop_row_Ok_complete pb g stat i iv s :
  (fop_row pb g stat i iv).2 = Ok s ->
  forall name, name ∈ sorted_fop_names g -> is_Some (fop_profiles iv !! name).
Proof.
  intros H name Hin.
  destruct (fop_row_Ok _ _ _ _ _ _ H name Hin) as (p & _ & Hp & _).
  by eexists.
Qed.

Lemma fop_rows_Ok pb g stat idxs ivs out ivs' out' :
  NoDup idxs ->
  fop_rows pb g stat idxs ivs out = (ivs', Ok out') ->
  forall i iv, ivs !! i = Some iv ->
    (i ∈ idxs ->
     (exists s, (fop_row pb g stat i iv).2 = Ok s) /\
     ivs' !! i = Some (fop_row pb g stat i iv).1) /\
    (i ∉ idxs -> ivs' !! i = Some iv).
Proof.
  intros Hnd. revert ivs out.
  induction Hnd as [|j rest Hj Hnd IH]; intros ivs out H i iv Hi.
  - simpl in H. injection H as <- _. split; [|done].
    intros Hin. by apply elem_of_nil in Hin.
  - simpl in H. destruct (ivs !! j) as [p|] eqn:Hp; [|discriminate].
    destruct (fop_row pb g stat j p) as [p' r] eqn:Hrow.
    destruct r as [s|]; [|discriminate].
    pose proof (lookup_lt_Some _ _ _ Hp) as Hlt.
    destruct (decide (i = j)) as [->|Hne].
    + assert (p = iv) as -> by congruence.
      destruct (IH _ _ H j p') as [_ Hout];
        [by apply list_lookup_insert_eq|].
      split; [|intros Hnot; exfalso; apply Hnot; by apply elem_of_cons; left].
      intros _. rewrite Hrow. simpl. split; [by exists s | by apply Hout].
    + destruct (IH _ _ H i iv) as [Hin Hout];
        [by rewrite list_lookup_insert_ne|].
      split.
      * intros Hi'. apply elem_of_cons in Hi' as [?|Hi']; [done|].
        by apply Hin.
      * intros Hi'. apply not_elem_of_cons in Hi' as [_ Hi']. by apply Hout.
Qed.

Lemma gen_per_fop_stats_Ok pb g stat ivs' out :
  gen_per_fop_stats pb g stat = (ivs', Ok out) ->
  forall i iv, g_intervals g !! i = Some iv ->
    (exists s, (fop_row pb g stat i iv).2 = Ok s) /\
    ivs' !! i = Some (fop_row pb g stat i iv).1.
Proof.
  unfold gen_per_fop_stats. intros H i iv Hi.
  destruct (fop_rows_Ok _ _ _ _ _ _ _ _ (NoDup_seq 0 _) H i iv Hi)
    as [Hin _].
  apply Hin. apply elem_of_seq. pose proof (lookup_lt_Some _ _ _ Hi). lia.
Qed.

Lemma elem_of_sorted (s : gset string) name : name ∈ sorted s <-> name ∈ s.
Proof.
  unfold sorted. rewrite merge_sort_Permutation. apply elem_of_elements.
Qed.

Section ParseInput.
Context `{B : Builtins}.

Lemma parse_input_Ok file_lines g :
  parse_input file_lines = Ok g ->
  exists st,
    parse_lines (expected_sample_interval g) init_state
      (drop 2 (py_strip <$> file_lines)) = Ok st /\
    sorted_fop_names g = sorted (fop_names st) /\
    g_intervals g = intervals st.
Proof.
  unfold parse_input. intros H. inv_bind. injection H as <-.
  by exists a4.
Qed.

Lemma parse_input_names file_lines g :
  parse_input file_lines = Ok g ->
  forall name,
    name ∈ sorted_fop_names g <->
    exists i iv, g_intervals g !! i = Some iv /\
                 is_Some (fop_profiles iv !! name).
Proof.
  intros H name. apply parse_input_Ok in H as (st & Hst & -> & ->).
  rewrite elem_of_sorted.
  by apply (names_inv_run _ _ _ _ names_inv_init Hst).
Qed.

End ParseInput.

(** ** Aggregator: the claims *)

(** C1: when a statistic pass over a parsed log completes, every operation
    record of every interval carries
    100 * (avg_lat * calls) / (combined_avg * total_calls), where the
    combined average is the call-weighted sum over the operations in sorted
    name order divided by the total calls; both quotients are 0 when their
    divisor is 0.  For READ with 10 calls of 100 us and WRITE with 5 calls
    of 200 us the combined average is (100*10 + 200*5)/15 and both
    percentages are 50 to six decimals (49.99999999999999 in binary64),
    written "50.00". *)
Theorem C1_pct_latency_formula `{B : Builtins} file_lines g pb stat ivs' out :
  parse_input file_lines = Ok g ->
  gen_per_fop_stats pb g stat = (ivs', Ok out) ->
  (forall i iv name p,
     g_intervals g !! i = Some iv -> fop_profiles iv !! name = Some p ->
     exists iv' p',
       ivs' !! i = Some iv' /\ fop_profiles iv' !! name = Some p' /\
       pct_lat p' =
         spec_pct_latency (spec_ops (sorted_fop_names g) (fop_profiles iv)) p)
  /\
  (let read := new_FopProfile (float_of_Z 100) (float_of_Z 50)
                 (float_of_Z 200) (float_of_Z 10) in
   let write := new_FopProfile (float_of_Z 200) (float_of_Z 150)
                  (float_of_Z 300) (float_of_Z 5) in
   let ops := [read; write] in
   spec_combined_avg ops
   = fdiv (float_of_Z (100 * 10 + 200 * 5)) (float_of_Z 15) /\
   fmt_f 6 (spec_pct_latency ops read) = "50.000000" /\
   fmt_f 6 (spec_pct_latency ops write) = "50.000000" /\
   fmt_f 2 (spec_pct_latency ops read) = "50.00" /\
   fmt_f 2 (spec_pct_latency ops write) = "50.00").
Proof.
  intros Hparse Hpass. split.
  - intros i iv name p Hi Hp.
    destruct (gen_per_fop_stats_Ok _ _ _ _ _ Hpass i iv Hi) as [[s Hs] Hi'].
    assert (name ∈ sorted_fop_names g) as Hin.
    { apply (parse_input_names _ _ Hparse). exists i, iv. split; [done|].
      by eexists. }
    destruct (fop_row_Ok _ _ _ _ _ _ Hs name Hin)
      as (q & p' & Hq & Hp' & _ & Hpct).
    assert (q = p) as -> by congruence.
    by exists (fop_row pb g stat i iv).1, p'.
  - vm_compute. repeat split.
Qed.

Lemma C1_pct_latency_witness :
  exists ivs' out iv' p',
    gen_per_fop_stats false (parsed log_read_write) "pct-lat"
    = (ivs', Ok out) /\
    ivs' !! 0%nat = Some iv' /\ fop_profiles iv' !! "READ" = Some p' /\
    fmt_f 6 (pct_lat p') = "50.000000".
Proof.
  assert (exists ivs' out,
            gen_per_fop_stats false (parsed log_read_write) "pct-lat"
            = (ivs', Ok out)) as (ivs' & out & Hpass)
    by (vm_compute; eexists; eexists; reflexivity).
  assert (parse_input (B := decimal_builtins) log_read_write
          = Ok (parsed log_read_write)) as Hparse
    by (vm_compute; reflexivity).
  set (iv := default new_ProfileInterval
               (g_intervals (parsed log_read_write) !! 0%nat)).
  set (p := new_FopProfile (float_of_Z 100) (float_of_Z 50)
              (float_of_Z 200) (float_of_Z 10)).
  assert (g_intervals (parsed log_read_write) !! 0%nat = Some iv) as Hiv
    by (vm_compute; reflexivity).
  assert (fop_profiles iv !! "READ" = Some p) as Hp
    by (vm_compute; reflexivity).
  assert (fmt_f 6
            (spec_pct_latency
               (spec_ops (sorted_fop_names (parsed log_read_write))
                  (fop_profiles iv)) p) = "50.000000") as Hfmt
    by (vm_compute; reflexivity).
  destruct (proj1 (C1_pct_latency_formula (B := decimal_builtins)
                     log_read_write (parsed log_read_write) false "pct-lat"
                     ivs' out Hparse Hpass) 0%nat iv "READ" p Hiv Hp)
    as (iv' & p' & Hiv' & Hp' & Hpct).
  exists ivs', out, iv', p'.
  split; [exact Hpass|]. split; [exact Hiv'|]. split; [exact Hp'|].
  rewrite Hpct. exact Hfmt.
Defined.







Lemma C9_frame_witness :
  Forall2 same_raw_interval (g_intervals (parsed log_read_write))
    (gen_per_fop_stats true (parsed log_read_write) "pct-lat").1.
Proof.
  exact (proj1 (C9_aggregation_frame true (parsed log_read_write) "pct-lat")).
Defined.

(** ** Rendering of the statistics *)

Lemma append_empty_r (x y : string) : x +:+ y = "" -> y = "".
Proof. destruct x; [done | discriminate]. Qed.

Lemma rjust_nonempty (w : nat) (s : string) :
  (0 < w)%nat -> rjust w s <> "".
Proof.
  intros Hw Heq. unfold rjust in Heq.
  pose proof (append_empty_r _ _ Heq) as ->.
  simpl in Heq. rewrite Nat.sub_0_r in Heq.
  destruct w; [lia | discriminate].
Qed.

Lemma feqb_zero_inv (x : float) :
  feqb x fzero = true -> exists s, x = S754_zero s.
Proof.
  destruct x as [s|s| |s m e]; try (by destruct s); [by exists s | done].
Qed.

(** a product with no calls is a zero, and so is its quotient by anything
    but a NaN (a zero divisor is the [ZeroDivisionError] of the handler) *)
Lemma pct_lat_without_calls p total :
  feqb (calls p) fzero = true -> is_finite (avg_lat p) = true ->
  is_nan total = false ->
  exists s, pct_lat (get_pct_lat p total) = S754_zero s.
Proof.
  intros Hcalls Havg Htotal. rewrite get_pct_lat_value.
  apply feqb_zero_inv in Hcalls as [sc ->].
  assert (exists s, fmul (float_of_Z 100) (fmul (avg_lat p) (S754_zero sc))
                    = S754_zero s) as [s ->].
  { destruct (avg_lat p) as [sa|sa| |sa ma ea]; try discriminate;
      eexists; reflexivity. }
  destruct total as [st|st| |st mt et]; try discriminate;
    destruct st; eexists; reflexivity.
Qed.

(** C5 (as the code has it): for an operation without calls whose average
    latency is a finite number, the percentage computed against any total
    that is a number is zero and is written as "0.00" (with the sign of the
    zero); the minimum-latency field is empty exactly when the stored
    minimum equals the sentinel [min_lat_infinity], and is the stored value
    in a field of eight characters otherwise, whatever the calls; the
    maximum-latency field is empty when the stored maximum is zero. *)
Theorem C5_rendering_without_calls p total d :
  feqb (calls p) fzero = true ->
  is_finite (avg_lat p) = true ->
  is_nan total = false ->
  let p' := get_pct_lat p total in
  feqb (pct_lat p') fzero = true /\
  (field2str p' "pct-lat" d = Ok (Some "0.00  ") \/
   field2str p' "pct-lat" d = Ok (Some "-0.00 ")) /\
  (field2str p' "min-lat" d = Ok (Some "") <->
   feqb (min_lat p) min_lat_infinity = true) /\
  (feqb (min_lat p) min_lat_infinity = false ->
   field2str p' "min-lat" d = Ok (Some (rjust 8 (fmt_f 0 (min_lat p))))) /\
  (feqb (max_lat p) fzero = true -> field2str p' "max-lat" d = Ok (Some "")).
Proof.
  intros Hcalls Havg Htotal p'.
  destruct (pct_lat_without_calls p total Hcalls Havg Htotal) as [s Hs].
  change (pct_lat p' = S754_zero s) in Hs.
  assert (min_lat p' = min_lat p) as Hmin by reflexivity.
  assert (max_lat p' = max_lat p) as Hmax by reflexivity.
  clearbody p'.
  split; [rewrite Hs; reflexivity|]. split; [|split; [|split]].
  - unfold field2str. cbn [String.eqb Ascii.eqb Bool.eqb].
    rewrite Hs. destruct s; [right | left]; reflexivity.
  - unfold field2str. cbn [String.eqb Ascii.eqb Bool.eqb]. rewrite Hmin.
    destruct (feqb (min_lat p) min_lat_infinity); split; try done.
    intros Heq. injection Heq as Heq.
    apply rjust_nonempty in Heq; [done | lia].
  - intros Hne. unfold field2str. cbn [String.eqb Ascii.eqb Bool.eqb].
    by rewrite Hmin, Hne.
  - intros Hz. unfold field2str. cbn [String.eqb Ascii.eqb Bool.eqb].
    by rewrite Hmax, Hz.
Qed.

Lemma C5_zero_calls_minimum_is_written :
  exists iv p,
    g_intervals (parsed log_read_write) !! 1%nat = Some iv /\
    fop_profiles iv !! "READ" = Some p /\
    feqb (calls p) fzero = true /\
    field2str p "min-lat" (duration iv) = Ok (Some "       0") /\
    field2str p "min-lat" (duration iv) <> Ok (Some "").
Proof.
  eexists. eexists. split; [vm_compute; reflexivity|].
  split; [vm_compute; reflexivity|]. split; [reflexivity|].
  split; [vm_compute; reflexivity|]. vm_compute. discriminate.
Qed.

Lemma C5_rendering_witness :
  let p := new_FopProfile fzero fzero fzero fzero in
  let p' := get_pct_lat p (float_of_Z 2000) in
  feqb (pct_lat p') fzero = true /\
  field2str p' "max-lat" (Some 5) = Ok (Some "").
Proof.
  intros p p'.
  destruct (C5_rendering_without_calls p (float_of_Z 2000) (Some 5)
              eq_refl eq_refl eq_refl) as (H1 & _ & _ & _ & H5).
  split; [exact H1 | exact (H5 eq_refl)].
Defined.

(** ** Tabular emitter *)

Lemma str_app_assoc (a b c : string) : (a +:+ b) +:+ c = a +:+ (b +:+ c).
Proof.
  induction a as [|x a IH]; [reflexivity|].
  change (String x ((a +:+ b) +:+ c) = String x (a +:+ (b +:+ c))).
  by rewrite IH.
Qed.

Lemma str_app_nil_r (a : string) : a +:+ "" = a.
Proof.
  induction a as [|x a IH]; [reflexivity|].
  change (String x (a +:+ "") = String x a). by rewrite IH.
Qed.

Lemma write_rows_Ok row js out content :
  write_rows row js out = Ok content ->
  exists rows, content = out +:+ str_concat rows /\
               Forall2 (fun j s => row j = Ok s) js rows.
Proof.
  revert out. induction js as [|j rest IH]; intros out H; simpl in H.
  - injection H as <-. exists []. split; [|constructor].
    symmetry. apply str_app_nil_r.
  - inv_bind. destruct (IH _ H) as (rows & -> & Hrows).
    exists (a :: rows). split; [|by constructor].
    apply str_app_assoc.
Qed.

Lemma py_float_of_int_Ok z x : py_float_of_int z = Ok x -> x = float_of_Z z.
Proof.
  unfold py_float_of_int. destruct (float_of_Z z); congruence.
Qed.

Lemma py_truediv_Ok x y q : py_truediv x y = Ok q -> q = fdiv x y.
Proof. unfold py_truediv. destruct (feqb y fzero); congruence. Qed.

Lemma timestamp_column_off g i : timestamp_column false g i = Ok "".
Proof. reflexivity. Qed.

Lemma timestamp_column_on g i ts :
  timestamp_column true g i = Ok ts ->
  exists z,
    py_int_of_float
      (fadd (start_time g)
         (float_of_Z (expected_sample_interval g * i * 1000))) = Ok z /\
    ts = string_of_Z z +:+ ", ".
Proof.
  unfold timestamp_column, gen_timestamp_ms, fmt_d.
  destruct (py_float_of_int _) as [x|] eqn:Hx; [|discriminate].
  apply py_float_of_int_Ok in Hx as ->. rewrite !ret_bind.
  destruct (py_int_of_float _) as [z|] eqn:Hz; [|discriminate].
  rewrite !ret_bind. intros H. injection H as <-. by exists z.
Qed.

Lemma bytes_row_Ok pb g direction j iv s :
  g_intervals g !! j = Some iv ->
  bytes_row pb g direction j = Ok s ->
  exists ts b,
    timestamp_column pb g (Z.of_nat j) = Ok ts /\
    (if contains "read" direction then bytes_read iv else bytes_written iv)
    = Some b /\
    s = ts +:+
        ljust 8 (fmt_f 3 (spec_byte_rate b (expected_sample_interval g)))
        +:+ nl.
Proof.
  intros Hj. unfold bytes_row. rewrite (py_getitem_nat _ _ _ Hj).
  destruct (timestamp_column pb g (Z.of_nat j)) as [ts|]; [|discriminate].
  rewrite !ret_bind.
  change (get_interval g (Z.of_nat j) "interval")
    with (py_float_of_int (expected_sample_interval g)).
  destruct (py_float_of_int (expected_sample_interval g)) as [x|] eqn:Hx;
    [|discriminate].
  apply py_float_of_int_Ok in Hx as ->. rewrite !ret_bind.
  destruct (if contains "read" direction then bytes_read iv
            else bytes_written iv) as [b|] eqn:Hb; [|discriminate].
  unfold of_option. rewrite !ret_bind.
  destruct (py_float_of_int b) as [xb|] eqn:Hxb; [|discriminate].
  apply py_float_of_int_Ok in Hxb as ->. rewrite !ret_bind.
  destruct (py_truediv _ _) as [q|] eqn:Hq; [|discriminate].
  apply py_truediv_Ok in Hq as ->. rewrite !ret_bind.
  destruct (py_truediv _ _) as [r|] eqn:Hr; [|discriminate].
  apply py_truediv_Ok in Hr as ->. rewrite !ret_bind.
  intros H. injection H as <-. by exists ts, b.
Qed.

Lemma bytes_row_split pb g direction j s :
  bytes_row pb g direction j = Ok s ->
  exists ts cols,
    timestamp_column pb g (Z.of_nat j) = Ok ts /\
    bytes_row false g direction j = Ok cols /\
    s = ts +:+ cols.
Proof.
  unfold bytes_row. rewrite timestamp_column_off.
  intros H. apply bind_Ok in H as (ts & Hts & H).
  exists ts. rewrite ret_bind.
  destruct (get_interval g (Z.of_nat j) "interval") as [x|]; [|discriminate].
  rewrite !ret_bind in *.
  destruct (py_getitem (g_intervals g) (Z.of_nat j)) as [iv|];
    [|discriminate].
  rewrite !ret_bind in *.
  destruct (of_option TypeError _) as [v|]; [|discriminate].
  rewrite !ret_bind in *.
  destruct (py_float_of_int v) as [xv|]; [|discriminate].
  rewrite !ret_bind in *.
  destruct (py_truediv xv x) as [q|]; [|discriminate].
  rewrite !ret_bind in *.
  destruct (py_truediv q bytes_per_MB) as [r|]; [|discriminate].
  rewrite !ret_bind in *. injection H as <-.
  eexists. split; [done|]. split; [reflexivity|]. reflexivity.
Qed.

Lemma fop_row_split pb g stat i iv s :
  (fop_row pb g stat i iv).2 = Ok s ->
  exists ts cols,
    timestamp_column pb g (Z.of_nat i) = Ok ts /\
    (fop_row false g stat i iv).2 = Ok cols /\
    s = ts +:+ cols /\
    (fop_row false g stat i iv).1 = (fop_row pb g stat i iv).1.
Proof.
  unfold fop_row. rewrite timestamp_column_off.
  destruct (accumulate_all _ _ _) as [acc|]; [|discriminate].
  destruct (timestamp_column pb g (Z.of_nat i)) as [ts|]; [|discriminate].
  destruct (columns_loop _ _ _ _ _ _) as [fops' r]. simpl.
  destruct r as [cols|]; [|discriminate]. simpl.
  destruct (join_columns cols) as [l|]; [|discriminate]. simpl.
  intros H. injection H as <-. exists ts. eexists.
  split; [done|]. split; [reflexivity|]. split; reflexivity.
Qed.

(** C7 (as the code has it): a byte-direction file is its header followed
    by one row per interval; the row of an interval is the optional
    timestamp column and the interval's byte count divided by the
    configured sampling interval, then by 1,000,000, with three decimals,
    left-justified in eight characters.  The header is "timestamp_ms, MB/s"
    or "MB/s" alone.  5,000,000 bytes at a sampling interval of 5 seconds
    give 1.000. *)
Theorem C7_byte_rate_rows pb g direction content :
  gen_output_bytes_file pb g direction = Ok content ->
  (exists rows,
     content = bytes_header pb +:+ str_concat rows /\
     length rows = length (g_intervals g) /\
     forall j iv, g_intervals g !! j = Some iv ->
       exists ts b,
         timestamp_column pb g (Z.of_nat j) = Ok ts /\
         (if contains "read" direction then bytes_read iv
          else bytes_written iv) = Some b /\
         rows !! j =
           Some (ts +:+
                 ljust 8
                   (fmt_f 3 (spec_byte_rate b (expected_sample_interval g)))
                 +:+ nl)) /\
  bytes_header true = "timestamp_ms, MB/s" +:+ nl /\
  bytes_header false = "MB/s" +:+ nl /\
  ljust 8 (fmt_f 3 (spec_byte_rate 5000000 5)) = "1.000   ".
Proof.
  intros H. split; [|by vm_compute].
  unfold gen_output_bytes_file in H.
  apply write_rows_Ok in H as (rows & -> & Hrows).
  exists rows. split; [done|].
  pose proof (Forall2_length _ _ _ Hrows) as Hlen.
  rewrite length_seq in Hlen. split; [done|].
  intros j iv Hj.
  pose proof (lookup_lt_Some _ _ _ Hj) as Hlt.
  destruct (Forall2_lookup_l _ _ _ j j Hrows) as (s & Hs & Hrow).
  { by apply lookup_seq_lt. }
  destruct (bytes_row_Ok _ _ _ _ _ _ Hj Hrow) as (ts & b & Hts & Hb & ->).
  by exists ts, b.
Qed.

Lemma C7_rate_ignores_recorded_duration :
  exists iv,
    g_intervals (parsed log_read_write) !! 1%nat = Some iv /\
    bytes_written iv = Some 5000000 /\ duration iv = Some 4 /\
    expected_sample_interval (parsed log_read_write) = 5 /\
    bytes_row false (parsed log_read_write) "MBps-written" 1
    = Ok ("1.000   " +:+ nl) /\
    ljust 8 (fmt_f 3 (spec_byte_rate 5000000 4)) = "1.250   " /\
    bytes_header true <> "timestamp, MB/s" +:+ nl.
Proof.
  eexists. split; [vm_compute; reflexivity|].
  repeat (split; [vm_compute; reflexivity|]).
  vm_compute. discriminate.
Qed.

Lemma C7_byte_rate_witness :
  exists content rows,
    gen_output_bytes_file false (parsed log_read_write) "MBps-written"
    = Ok content /\
    content = bytes_header false +:+ str_concat rows /\
    length rows = 2%nat.
Proof.
  assert (exists content,
            gen_output_bytes_file false (parsed log_read_write)
              "MBps-written" = Ok content) as [content Hc]
    by (vm_compute; eexists; reflexivity).
  destruct (proj1 (C7_byte_rate_rows false (parsed log_read_write)
                     "MBps-written" content Hc)) as (rows & Hrows & Hlen & _).
  exists content, rows. split; [exact Hc|]. split; [exact Hrows|].
  rewrite Hlen. vm_compute. reflexivity.
Defined.

(** C8: the text an iteration writes for interval [i] starts with a
    timestamp column exactly when the switch is on: with the switch off the
    row is the statistic or byte columns alone, with it on the row is the
    same columns after the integer part of
    start_time + (expected_sample_interval * i) * 1000 and ", ".  The
    switch is off exactly when SKIP_PBENCH_GRAPHING is set and not empty. *)
Theorem C8_timestamp_column_follows_switch pb g (i : nat) ts :
  timestamp_column pb g (Z.of_nat i) = Ok ts ->
  (if pb then
     exists z,
       py_int_of_float
         (fadd (start_time g)
            (float_of_Z (expected_sample_interval g * Z.of_nat i * 1000)))
       = Ok z /\
       ts = string_of_Z z +:+ ", "
   else ts = "") /\
  (forall direction s,
     bytes_row pb g direction i = Ok s ->
     exists cols, bytes_row false g direction i = Ok cols /\
                  s = ts +:+ cols) /\
  (forall stat iv s,
     (fop_row pb g stat i iv).2 = Ok s ->
     exists cols, (fop_row false g stat i iv).2 = Ok cols /\
                  s = ts +:+ cols) /\
  bytes_header pb = (if pb then "timestamp_ms, " else "") +:+
                    bytes_header false /\
  fop_header pb g = (if pb then "timestamp_ms, " else "") +:+
                    fop_header false g /\
  (forall env,
     pbench_graphs_of_env env = false <->
     exists v, env = Some v /\ v <> "").
Proof.
  intros Hts. split; [|split; [|split; [|split; [|split]]]].
  - destruct pb.
    + by apply timestamp_column_on.
    + rewrite timestamp_column_off in Hts. by injection Hts as <-.
  - intros direction s Hs.
    destruct (bytes_row_split _ _ _ _ _ Hs) as (ts' & cols & Hts' & Hc & ->).
    assert (ts' = ts) as -> by congruence. by exists cols.
  - intros stat iv s Hs.
    destruct (fop_row_split _ _ _ _ _ _ Hs)
      as (ts' & cols & Hts' & Hc & -> & _).
    assert (ts' = ts) as -> by congruence. by exists cols.
  - by destruct pb.
  - by destruct pb.
  - intros env. split.
    + destruct env as [[|a v]|]; try discriminate. intros _.
      by exists (String a v).
    + intros (v & -> & Hv). by destruct v.
Qed.

Lemma C8_timestamp_witness :
  timestamp_column true (parsed log_read_write) (Z.of_nat 1)
  = Ok "1445467833000, " /\
  exists z,
    py_int_of_float
      (fadd (start_time (parsed log_read_write))
         (float_of_Z
            (expected_sample_interval (parsed log_read_write)
             * Z.of_nat 1 * 1000))) = Ok z /\
    "1445467833000, " = string_of_Z z +:+ ", ".
Proof.
  assert (timestamp_column true (parsed log_read_write) (Z.of_nat 1)
          = Ok "1445467833000, ") as Hts by (vm_compute; reflexivity).
  split; [exact Hts|].
  exact (proj1 (C8_timestamp_column_follows_switch true
                  (parsed log_read_write) 1 "1445467833000, " Hts)).
Defined.

(** * Further properties of the parser *)

Section ParserExtras.
Context `{B : Builtins}.

Lemma step_length esi st ln st' :
  parse_line esi st ln = Ok st' ->
  length (intervals st') =
  (length (intervals st) + if is_interval_marker ln then 1 else 0)%nat.
Proof.
  unfold parse_line, is_interval_marker.
  destruct (classify ln); intros H; rewrite ?Nat.add_0_r.
  - inv_bind. injection H as <-. simpl. rewrite length_app. simpl. lia.
  - by injection H as <-.
  - inv_bind. destruct (found_interval_output st).
    + apply update_current_Ok in H as (n & p & _ & _ & ->).
      destruct (1 <? _); simpl; by rewrite length_insert.
    + by injection H as <-.
  - destruct (found_interval_output st).
    + inv_bind. apply update_current_Ok in H as (n & p & _ & _ & ->).
      simpl. by rewrite length_insert.
    + by injection H as <-.
  - destruct (found_interval_output st).
    + inv_bind. apply update_current_Ok in H as (n & p & _ & _ & ->).
      simpl. by rewrite length_insert.
    + by injection H as <-.
  - by injection H as <-.
  - by injection H as <-.
  - destruct (found_interval_output st && all_caps_name_match ln).
    + inv_bind. destruct (fop_profiles a !! a0); [no_fall_through|].
      apply update_current_Ok in H as (n & p & _ & _ & ->).
      simpl. by rewrite length_insert.
    + by injection H as <-.
Qed.

Lemma run_length esi st lines st' :
  parse_lines esi st lines = Ok st' ->
  length (intervals st') =
  (length (intervals st) + length (List.filter is_interval_marker lines))%nat.
Proof.
  revert st. induction lines as [|ln lines IH]; intros st H; simpl in H.
  - injection H as <-. simpl. lia.
  - inv_bind. rewrite (IH _ H), (step_length _ _ _ _ E). simpl.
    destruct (is_interval_marker ln); simpl; lia.
Qed.

(** X1: the parsed list has exactly one interval per interval-marker line,
    whatever number a marker carries; the two counters stay one apart, so
    the assertion of the marker cannot fail, and [intvl] is the index of
    the last interval. *)
Theorem X1_one_interval_per_marker esi lines st :
  parse_lines esi init_state lines = Ok st ->
  length (intervals st) = length (List.filter is_interval_marker lines) /\
  intvl st = last_intvl st + 1 /\
  intvl st = Z.of_nat (length (intervals st)) - 1.
Proof.
  intros H. split; [exact (run_length _ _ _ _ H)|].
  exact (counters_inv_run _ _ _ _ counters_inv_init H).
Qed.

Lemma block_nonempty_step esi st ln st' :
  (found_interval_output st = true -> (0 < length (intervals st))%nat) ->
  parse_line esi st ln = Ok st' ->
  found_interval_output st' = true -> (0 < length (intervals st'))%nat.
Proof.
  intros Hinv H Hf. rewrite (step_length _ _ _ _ H).
  revert H Hf. unfold parse_line, is_interval_marker.
  destruct (classify ln); intros H Hf; try lia.
  - injection H as <-. simpl in Hf. specialize (Hinv Hf). lia.
  - inv_bind. destruct (found_interval_output st) eqn:Hfi.
    + specialize (Hinv eq_refl). lia.
    + injection H as <-. congruence.
  - destruct (found_interval_output st) eqn:Hfi.
    + specialize (Hinv eq_refl). lia.
    + injection H as <-. congruence.
  - destruct (found_interval_output st) eqn:Hfi.
    + specialize (Hinv eq_refl). lia.
    + injection H as <-. congruence.
  - injection H as <-. simpl in Hf. discriminate.
  - injection H as <-. simpl in Hf. specialize (Hinv Hf). lia.
  - destruct (found_interval_output st) eqn:Hfi.
    + specialize (Hinv eq_refl). lia.
    + simpl in H. injection H as <-. congruence.
Qed.

Lemma block_nonempty_run esi st lines st' :
  (found_interval_output st = true -> (0 < length (intervals st))%nat) ->
  parse_lines esi st lines = Ok st' ->
  found_interval_output st' = true -> (0 < length (intervals st'))%nat.
Proof.
  revert st. induction lines as [|ln lines IH]; intros st Hinv H; simpl in H.
  - by injection H as <-.
  - inv_bind. eapply IH; [|exact H].
    by eapply block_nonempty_step.
Qed.

Lemma current_is_last st :
  counters_inv st -> (0 < length (intervals st))%nat ->
  py_index (intervals st) (intvl st) = Ok (pred (length (intervals st))) /\
  exists iv, last (intervals st) = Some iv /\
             py_getitem (intervals st) (intvl st) = Ok iv.
Proof.
  intros [_ Hintvl] Hlen.
  assert (py_index (intervals st) (intvl st)
          = Ok (pred (length (intervals st)))) as Hidx.
  { unfold py_index. rewrite Hintvl.
    replace ((0 <=? Z.of_nat (length (intervals st)) - 1)
             && (Z.of_nat (length (intervals st)) - 1
                 <? Z.of_nat (length (intervals st)))) with true.
    - f_equal. lia.
    - symmetry. apply andb_true_iff.
      split; [apply Z.leb_le | apply Z.ltb_lt]; lia. }
  split; [done|].
  destruct (lookup_lt_is_Some_2 (intervals st) (pred (length (intervals st))))
    as [iv Hiv]; [lia|].
  exists iv. split.
  - by rewrite last_lookup.
  - unfold py_getitem. rewrite Hidx, ret_bind. by rewrite Hiv.
Qed.

(** X2: whenever the loop is in an interval block, the list of intervals is
    not empty and [intervals[intvl]] is its last element: the lines of the
    block can only reach the interval opened last, and indexing the list
    never raises. *)
Theorem X2_current_interval_is_last esi st :
  reachable esi st -> found_interval_output st = true ->
  exists iv,
    last (intervals st) = Some iv /\
    py_getitem (intervals st) (intvl st) = Ok iv /\
    py_index (intervals st) (intvl st) = Ok (pred (length (intervals st))).
Proof.
  intros [lines Hrun] Hf.
  pose proof (counters_inv_run _ _ _ _ counters_inv_init Hrun) as Hc.
  assert (0 < length (intervals st))%nat as Hlen.
  { eapply block_nonempty_run; [|exact Hrun|exact Hf]. discriminate. }
  destruct (current_is_last st Hc Hlen) as (Hidx & iv & Hlast & Hget).
  by exists iv.
Qed.

Lemma skipped_step esi st ln :
  found_interval_output st = false -> found_cumulative_output st = true ->
  skipped_in_cumulative ln -> parse_line esi st ln = Ok st.
Proof.
  intros Hi Hc Hln. unfold parse_line.
  destruct Hln as [-> | [-> | [-> | [-> [d Hd]]]]]; rewrite ?Hi, ?Hc;
    try reflexivity.
  simpl. rewrite Hd. reflexivity.
Qed.

(** X3: a cumulative block is skipped.  With the interval flag cleared and
    the cumulative flag set, byte counters, operation rows and any other
    line without marker leave the state as it is, whatever their tokens
    are, and so does a "Duration :" line whose number is readable; a
    "Duration :" line whose number is not readable still ends the run,
    although its value would be discarded. *)
Theorem X3_cumulative_block_is_skipped esi st blk :
  found_interval_output st = false -> found_cumulative_output st = true ->
  Forall skipped_in_cumulative blk ->
  parse_lines esi st blk = Ok st /\
  (forall ln e,
     classify ln = DurationLine ->
     int_token (String.words ln) 2 = Raise e ->
     parse_line esi st ln = Raise e).
Proof.
  intros Hi Hc Hblk. split.
  - induction Hblk as [|ln blk Hln _ IH]; [done|].
    rewrite parse_lines_cons, (skipped_step _ _ _ Hi Hc Hln), ret_bind.
    exact IH.
  - intros ln e Hd He. unfold parse_line. rewrite Hd, Hi, Hc. simpl.
    by rewrite He.
Qed.

(** X4: in an interval block a "Duration :" line with a readable number
    never fails: the number becomes the duration of the last interval, and
    a warning (sample, duration, expected) is printed exactly when it
    differs from the expected interval by more than one second. *)
Theorem X4_duration_recorded_with_warning esi st ln d :
  reachable esi st ->
  found_interval_output st = true -> found_cumulative_output st = false ->
  classify ln = DurationLine ->
  int_token (String.words ln) 2 = Ok d ->
  exists iv,
    last (intervals st) = Some iv /\
    parse_line esi st ln =
    Ok (mkParseState false true (fop_names st) (last_intvl st) (intvl st)
          (sample st)
          (<[pred (length (intervals st)) := set_duration d iv]>
             (intervals st))
          (warnings st ++
           if 1 <? Z.abs (d - esi) then [(sample st, d, esi)] else [])).
Proof.
  intros Hreach Hf Hc Hln Hd.
  destruct Hreach as [pre Hpre].
  pose proof (counters_inv_run _ _ _ _ counters_inv_init Hpre) as Hcnt.
  assert (0 < length (intervals st))%nat as Hlen.
  { eapply block_nonempty_run; [|exact Hpre|exact Hf]. discriminate. }
  destruct (current_is_last st Hcnt Hlen) as (Hidx & iv & Hlast & _).
  exists iv. split; [done|].
  assert (intervals st !! pred (length (intervals st)) = Some iv) as Hiv
    by (by rewrite <- last_lookup).
  unfold parse_line. rewrite Hln, Hf, Hc. simpl. rewrite Hd. simpl.
  unfold update_current.
  destruct (1 <? Z.abs (d - esi)); simpl; rewrite Hidx; simpl;
    rewrite Hiv; simpl; unfold with_intervals; simpl;
    rewrite ?Hf, ?Hc, ?app_nil_r; reflexivity.
Qed.

End ParserExtras.

Lemma X1_one_interval_per_marker_witness :
  exists st,
    parse_lines (B := decimal_builtins) 5 init_state
      lines_unclosed_cumulative = Ok st /\
    length (intervals st) = 2%nat.
Proof.
  assert (exists st,
            parse_lines (B := decimal_builtins) 5 init_state
              lines_unclosed_cumulative = Ok st) as [st Hst]
    by (vm_compute; eexists; reflexivity).
  exists st. split; [exact Hst|].
  exact (proj1 (X1_one_interval_per_marker 5 lines_unclosed_cumulative st
                  Hst)).
Defined.

Lemma X2_current_interval_witness :
  exists st iv,
    parse_lines (B := decimal_builtins) 5 init_state
      lines_unclosed_cumulative = Ok st /\
    last (intervals st) = Some iv /\
    py_getitem (intervals st) (intvl st) = Ok iv.
Proof.
  assert (exists st,
            parse_lines (B := decimal_builtins) 5 init_state
              lines_unclosed_cumulative = Ok st /\
            found_interval_output st = true) as (st & Hst & Hf)
    by (vm_compute; eexists; split; reflexivity).
  destruct (X2_current_interval_is_last (B := decimal_builtins) 5 st
              (ex_intro _ lines_unclosed_cumulative Hst) Hf)
    as (iv & Hlast & Hget & _).
  by exists st, iv.
Defined.

Lemma X3_cumulative_block_witness :
  parse_lines (B := decimal_builtins) 5
    (mkParseState true false ∅ (-1) 0 (-1) [new_ProfileInterval] [])
    ["Duration : 10 secs"; "BytesRead : not-a-number";
     "READ this row is not even numeric"]
  = Ok (mkParseState true false ∅ (-1) 0 (-1) [new_ProfileInterval] []).
Proof.
  refine (proj1 (X3_cumulative_block_is_skipped (B := decimal_builtins) 5
                   _ _ _ _ _)).
  - reflexivity.
  - reflexivity.
  - apply List.Forall_cons.
    { right. right. right. split; [reflexivity|].
      exists 10. vm_compute. reflexivity. }
    apply List.Forall_cons; [left; reflexivity|].
    apply List.Forall_cons; [right; right; left; reflexivity|].
    apply List.Forall_nil.
Defined.

Lemma X4_duration_witness :
  parse_line (B := decimal_builtins) 5
    (mkParseState false true ∅ (-1) 0 (-1) [new_ProfileInterval] [])
    "Duration : 9 secs"
  = Ok (mkParseState false true ∅ (-1) 0 (-1)
          [set_duration 9 new_ProfileInterval] [(-1, 9, 5)]).
Proof.
  destruct (X4_duration_recorded_with_warning (B := decimal_builtins)
              5 (mkParseState false true ∅ (-1) 0 (-1)
                   [new_ProfileInterval] [])
              "Duration : 9 secs" 9
              (ex_intro _ ["=== Interval 0 stats ==="] eq_refl)
              eq_refl eq_refl eq_refl eq_refl) as (iv & Hlast & Hstep).
  injection Hlast as <-. exact Hstep.
Defined.

Section ParserExtras2.
Context `{B : Builtins}.

Lemma update_current_frozen f st st' i :
  counters_inv st -> update_current f st = Ok st' ->
  (i + 1 < length (intervals st))%nat ->
  intervals st' !! i = intervals st !! i.
Proof.
  intros Hc H Hi. apply update_current_Ok in H as (n & p & Hidx & _ & ->).
  destruct (current_is_last st Hc) as [Hlast _]; [lia|].
  assert (n = pred (length (intervals st))) as -> by congruence.
  simpl. apply list_lookup_insert_ne. lia.
Qed.

Lemma frozen_step esi st ln st' i :
  counters_inv st -> parse_line esi st ln = Ok st' ->
  (i + 1 < length (intervals st))%nat ->
  intervals st' !! i = intervals st !! i.
Proof.
  intros Hc H Hi. revert H. unfold parse_line.
  destruct (classify ln); intros H.
  - inv_bind. injection H as <-. simpl. apply lookup_app_l. lia.
  - by injection H as <-.
  - inv_bind. destruct (found_interval_output st).
    + destruct (1 <? _);
        match type of H with
        | update_current _ ?s = _ =>
            change (intervals st' !! i = intervals s !! i);
            eapply update_current_frozen; [|exact H|]; [exact Hc|exact Hi]
        end.
    + by injection H as <-.
  - destruct (found_interval_output st).
    + inv_bind. exact (update_current_frozen _ _ _ _ Hc H Hi).
    + by injection H as <-.
  - destruct (found_interval_output st).
    + inv_bind. exact (update_current_frozen _ _ _ _ Hc H Hi).
    + by injection H as <-.
  - by injection H as <-.
  - by injection H as <-.
  - destruct (found_interval_output st && all_caps_name_match ln).
    + inv_bind. destruct (fop_profiles a !! a0); [no_fall_through|].
      match type of H with
      | update_current _ ?s = _ =>
          change (intervals st' !! i = intervals s !! i);
          eapply update_current_frozen; [|exact H|]; [exact Hc|exact Hi]
      end.
    + by injection H as <-.
Qed.

(** X6: the list of intervals only grows at its end, and an interval that
    is no longer the last one is never changed again: whatever lines
    follow, every interval but the last of the current state is found
    unchanged at the same position when the parse completes. *)
Theorem X6_closed_intervals_are_frozen esi st lines st' i :
  reachable esi st -> parse_lines esi st lines = Ok st' ->
  (i + 1 < length (intervals st))%nat ->
  intervals st' !! i = intervals st !! i /\
  (length (intervals st) <= length (intervals st'))%nat.
Proof.
  intros [pre Hpre] Hrun Hi.
  pose proof (counters_inv_run _ _ _ _ counters_inv_init Hpre) as Hc.
  split; [|rewrite (run_length _ _ _ _ Hrun); lia].
  clear Hpre. revert st Hc Hrun Hi.
  induction lines as [|ln lines IH]; intros st Hc Hrun Hi; simpl in Hrun.
  - by injection Hrun as <-.
  - inv_bind. rewrite <- (frozen_step _ _ _ _ _ Hc E Hi).
    apply IH; [by eapply counters_inv_step|done|].
    rewrite (step_length _ _ _ _ E). lia.
Qed.

Lemma total_records_insert ivs k x y :
  ivs !! k = Some x ->
  (total_records (<[k := y]> ivs) + size (fop_profiles x)
   = total_records ivs + size (fop_profiles y))%nat.
Proof.
  unfold total_records. revert k.
  induction ivs as [|iv ivs IH]; intros k Hk; [done|].
  destruct k as [|k]; simpl in *.
  - injection Hk as ->. lia.
  - specialize (IH k Hk). lia.
Qed.

Lemma update_current_records f st st' (c : nat) :
  update_current f st = Ok st' ->
  (forall p, size (fop_profiles (f p)) = (size (fop_profiles p) + c)%nat) ->
  total_records (intervals st') = (total_records (intervals st) + c)%nat.
Proof.
  intros H Hf. apply update_current_Ok in H as (n & p & _ & Hn & ->).
  simpl. pose proof (total_records_insert _ _ _ (f p) Hn) as Ht.
  rewrite Hf in Ht. lia.
Qed.

Lemma records_step esi st ln st' :
  parse_line esi st ln = Ok st' ->
  Z.of_nat (total_records (intervals st')) - sample st' =
  Z.of_nat (total_records (intervals st)) - sample st.
Proof.
  unfold parse_line. destruct (classify ln); intros H.
  - inv_bind. injection H as <-. simpl. unfold total_records.
    rewrite sum_list_with_app. simpl. rewrite map_size_empty. lia.
  - by injection H as <-.
  - inv_bind. destruct (found_interval_output st).
    + pose proof (update_current_records _ _ _ 0%nat H) as Hr.
      rewrite Hr by (intros; simpl; lia).
      apply update_current_Ok in H as (? & ? & _ & _ & ->).
      destruct (1 <? _); simpl; lia.
    + by injection H as <-.
  - destruct (found_interval_output st).
    + inv_bind.
      rewrite (update_current_records _ _ _ 0 H) by (intros; simpl; lia).
      apply update_current_Ok in H as (? & ? & _ & _ & ->). simpl. lia.
    + by injection H as <-.
  - destruct (found_interval_output st).
    + inv_bind.
      rewrite (update_current_records _ _ _ 0 H) by (intros; simpl; lia).
      apply update_current_Ok in H as (? & ? & _ & _ & ->). simpl. lia.
    + by injection H as <-.
  - by injection H as <-.
  - by injection H as <-.
  - destruct (found_interval_output st && all_caps_name_match ln).
    + inv_bind. destruct (fop_profiles a !! a0) eqn:Hfree; [no_fall_through|].
      apply py_getitem_Ok in E as (k & Hk & Hiv).
      pose proof H as H'.
      apply update_current_Ok in H' as (n & p & Hidx & Hn & ->).
      simpl in Hidx, Hn.
      assert (n = k) as -> by congruence. assert (p = a) as -> by congruence.
      simpl. pose proof (total_records_insert _ _ _
        (setitem_fop a0 (new_FopProfile a1 a2 a3 a4) a) Hiv) as Ht.
      simpl in Ht. rewrite map_size_insert_None in Ht by done. lia.
    + by injection H as <-.
Qed.

(** X7: every operation row that the parser accepts is stored exactly
    once: when the parse completes, the number of records held by all
    intervals together is the number of rows counted in [sample]. *)
Theorem X7_every_row_stored_once esi lines st :
  parse_lines esi init_state lines = Ok st ->
  Z.of_nat (total_records (intervals st)) = sample st + 1.
Proof.
  intros H.
  assert (forall st0 st1, parse_lines esi st0 lines = Ok st1 ->
            Z.of_nat (total_records (intervals st1)) - sample st1 =
            Z.of_nat (total_records (intervals st0)) - sample st0) as Hgen.
  { clear H. induction lines as [|ln lines IH]; intros st0 st1 H; simpl in H.
    - by injection H as <-.
    - inv_bind. rewrite (IH _ _ H). by eapply records_step. }
  specialize (Hgen _ _ H). simpl in Hgen. lia.
Qed.

Lemma sorted_NoDup (s : gset string) : NoDup (sorted s).
Proof.
  unfold sorted. rewrite merge_sort_Permutation. apply NoDup_elements.
Qed.

Lemma sorted_StronglySorted (s : gset string) :
  StronglySorted String.le (sorted s).
Proof. unfold sorted. apply StronglySorted_merge_sort; apply _. Qed.

(** X8: the list of operation names that fixes the columns of every
    statistic table is in ascending order of the strings and without
    repetition: a name further right is greater and different. *)
Theorem X8_names_sorted_without_repetition file_lines g :
  parse_input file_lines = Ok g ->
  StronglySorted String.le (sorted_fop_names g) /\
  NoDup (sorted_fop_names g) /\
  (forall i j a b,
     sorted_fop_names g !! i = Some a -> sorted_fop_names g !! j = Some b ->
     (i < j)%nat -> String.le a b /\ a <> b).
Proof.
  intros H. apply parse_input_Ok in H as (st & _ & -> & _).
  pose proof (sorted_NoDup (fop_names st)) as Hnd.
  pose proof (sorted_StronglySorted (fop_names st)) as Hs.
  split; [done|]. split; [done|].
  intros i j a b Hi Hj Hlt. split.
  - apply list_elem_of_split_length in Hi as (l1 & l2 & Heq & Hlen).
    rewrite Heq in Hs, Hj.
    apply StronglySorted_app in Hs as (_ & _ & Hs).
    apply StronglySorted_cons in Hs as [Hall _].
    rewrite lookup_app_r in Hj by lia.
    destruct (j - length l1)%nat as [|k] eqn:Hk; [lia|]. simpl in Hj.
    rewrite Forall_forall in Hall. apply Hall.
    by eapply list_elem_of_lookup_2.
  - intros ->. pose proof (NoDup_lookup _ _ _ _ Hnd Hi Hj). lia.
Qed.

End ParserExtras2.

Lemma X6_closed_intervals_witness :
  exists st',
    parse_lines (B := decimal_builtins) 5
      (mkParseState false true ∅ 0 1 (-1)
         [set_duration 5 new_ProfileInterval; new_ProfileInterval] [])
      ["Duration : 6 secs"; "BytesRead : 3"] = Ok st' /\
    intervals st' !! 0%nat = Some (set_duration 5 new_ProfileInterval).
Proof.
  assert (exists st',
            parse_lines (B := decimal_builtins) 5
              (mkParseState false true ∅ 0 1 (-1)
                 [set_duration 5 new_ProfileInterval; new_ProfileInterval] [])
              ["Duration : 6 secs"; "BytesRead : 3"] = Ok st') as [st' Hrun]
    by (vm_compute; eexists; reflexivity).
  exists st'. split; [exact Hrun|].
  refine (proj1 (X6_closed_intervals_are_frozen (B := decimal_builtins) 5
                   _ _ st' 0%nat _ Hrun _)).
  - exists ["=== Interval 0 stats ==="; "Duration : 5 secs";
            "=== Cumulative stats ==="; "Current open fd's: 1";
            "=== Interval 1 stats ==="].
    vm_compute. reflexivity.
  - simpl. lia.
Defined.

Lemma X7_every_row_stored_once_witness :
  exists st,
    parse_lines (B := decimal_builtins) 5 init_state
      (drop 2 (py_strip <$> log_read_write)) = Ok st /\
    Z.of_nat (total_records (intervals st)) = sample st + 1.
Proof.
  assert (exists st,
            parse_lines (B := decimal_builtins) 5 init_state
              (drop 2 (py_strip <$> log_read_write)) = Ok st) as [st Hst]
    by (vm_compute; eexists; reflexivity).
  exists st. split; [exact Hst|].
  exact (X7_every_row_stored_once 5 _ st Hst).
Defined.

Lemma X8_names_sorted_witness :
  NoDup (sorted_fop_names (parsed log_read_write)).
Proof.
  refine (proj1 (proj2 (X8_names_sorted_without_repetition
                          (B := decimal_builtins) log_read_write
                          (parsed log_read_write) _))).
  vm_compute. reflexivity.
Defined.

(** * Further properties of the aggregator and the emitter *)

Lemma total_lat_of_accumulated fops names acc :
  accumulate_all fops names empty_all_fop_profile = Ok acc ->
  fmul (avg_lat (normalize_sum acc)) (calls (normalize_sum acc))
  = total_lat_of names fops.
Proof.
  intros H. apply accumulate_all_Ok in H as (_ & Havg & Hcalls).
  rewrite normalize_sum_avg, normalize_sum_calls.
  unfold total_lat_of, spec_combined_avg, spec_total_calls, spec_weighted_sum.
  simpl in Havg, Hcalls. by rewrite <- Havg, <- Hcalls.
Qed.

Lemma columns_loop_cols stat d total names fops cols fops' cols' :
  columns_loop stat d total names fops cols = (fops', Ok cols') ->
  exists new,
    cols' = cols ++ new /\
    Forall2 (fun name c =>
               exists p, fops !! name = Some p /\
                         field2str (get_pct_lat p total) stat d = Ok c)
      names new.
Proof.
  revert fops cols. induction names as [|fop rest IH]; intros fops cols H.
  - simpl in H. injection H as _ <-. exists []. split; [|constructor].
    by rewrite app_nil_r.
  - simpl in H. destruct (fops !! fop) as [fs|] eqn:Hfs; [|discriminate].
    destruct (field2str (get_pct_lat fs total) stat d) as [c|] eqn:Hc;
      [|discriminate].
    destruct (IH _ _ H) as (new & -> & Hnew).
    exists (c :: new). split; [by rewrite <- app_assoc|].
    constructor; [by exists fs|].
    eapply Forall2_impl; [exact Hnew|].
    intros name c' (p1 & Hp1 & Hf). rewrite lookup_insert in Hp1.
    case_decide as Hd.
    + subst name. injection Hp1 as <-. by exists fs.
    + by exists p1.
Qed.

Lemma join_columns_Ok cols l :
  join_columns cols = Ok l -> cols = Some <$> l.
Proof.
  revert l. induction cols as [|[c|] cols IH]; intros l H; simpl in H.
  - by injection H as <-.
  - destruct (join_columns cols) as [l'|]; [|discriminate].
    simpl in H. injection H as <-. simpl. f_equal. by apply IH.
  - discriminate.
Qed.

(** X9: a row of a statistic table has one field per observed name, in the
    order of the sorted names: after the optional timestamp column, the
    k-th field is [field2str] of the record of the k-th name, taken after
    its percentage has been computed against the interval's total; the
    fields are joined by commas and the row ends the line. *)
Theorem X9_row_fields_follow_names pb g stat i iv s :
  (fop_row pb g stat i iv).2 = Ok s ->
  exists ts l,
    timestamp_column pb g (Z.of_nat i) = Ok ts /\
    s = ts +:+ py_join "," l +:+ nl /\
    length l = length (sorted_fop_names g) /\
    Forall2
      (fun name c =>
         exists p,
           fop_profiles iv !! name = Some p /\
           field2str
             (get_pct_lat p
                (total_lat_of (sorted_fop_names g) (fop_profiles iv)))
             stat (duration iv) = Ok (Some c))
      (sorted_fop_names g) l.
Proof.
  unfold fop_row.
  destruct (accumulate_all _ _ _) as [acc|] eqn:Hacc; [|discriminate].
  apply total_lat_of_accumulated in Hacc. rewrite Hacc.
  destruct (timestamp_column pb g (Z.of_nat i)) as [ts|]; [|discriminate].
  destruct (columns_loop _ _ _ _ _ _) as [fops' r] eqn:Hloop. simpl.
  destruct r as [cols|]; [|discriminate]. simpl.
  destruct (join_columns cols) as [l|] eqn:Hjoin; [|discriminate]. simpl.
  intros H. injection H as <-. exists ts, l. split; [done|]. split; [done|].
  apply join_columns_Ok in Hjoin as ->.
  apply columns_loop_cols in Hloop as (new & Hnew & Hall). simpl in Hnew.
  subst new. apply Forall2_fmap_r in Hall.
  split; [symmetry; by eapply Forall2_length|done].
Qed.

Lemma X9_row_fields_witness :
  exists l,
    length l = 2%nat /\
    (fop_row false (parsed log_read_write) "avg-lat" 0
       (default new_ProfileInterval
          (g_intervals (parsed log_read_write) !! 0%nat))).2
    = Ok ("" +:+ py_join "," l +:+ nl).
Proof.
  assert (exists s,
            (fop_row false (parsed log_read_write) "avg-lat" 0
               (default new_ProfileInterval
                  (g_intervals (parsed log_read_write) !! 0%nat))).2
            = Ok s) as [s Hs]
    by (vm_compute; eexists; reflexivity).
  destruct (X9_row_fields_follow_names _ _ _ _ _ _ Hs)
    as (ts & l & Hts & -> & Hlen & _).
  rewrite timestamp_column_off in Hts. injection Hts as <-.
  exists l. split; [|exact Hs].
  rewrite Hlen. vm_compute. reflexivity.
Defined.

Lemma accumulate_all_complete fops names acc :
  (forall name, name ∈ names -> is_Some (fops !! name)) ->
  exists acc', accumulate_all fops names acc = Ok acc'.
Proof.
  revert acc. induction names as [|fop rest IH]; intros acc Hall; simpl.
  - by eexists.
  - destruct (Hall fop) as [fs Hfs]; [by apply elem_of_cons; left|].
    rewrite Hfs. simpl. apply IH. intros name Hin. apply Hall.
    by apply elem_of_cons; right.
Qed.

Lemma field2str_latency p stat d :
  latency_stat stat -> exists c, field2str p stat d = Ok (Some c).
Proof.
  intros [-> | [-> | [-> | ->]]]; unfold field2str;
    cbn [String.eqb Ascii.eqb Bool.eqb]; try (by eexists).
  - destruct (feqb _ _); by eexists.
  - destruct (feqb _ _); by eexists.
Qed.

Lemma columns_loop_complete stat d total names fops cols :
  latency_stat stat ->
  (forall name, name ∈ names -> is_Some (fops !! name)) ->
  Forall is_Some cols ->
  exists fops' cols',
    columns_loop stat d total names fops cols = (fops', Ok cols') /\
    Forall is_Some cols'.
Proof.
  intros Hstat. revert fops cols.
  induction names as [|fop rest IH]; intros fops cols Hall Hcols; simpl.
  - by exists fops, cols.
  - destruct (Hall fop) as [fs Hfs]; [by apply elem_of_cons; left|].
    rewrite Hfs.
    destruct (field2str_latency (get_pct_lat fs total) stat d Hstat)
      as [c ->].
    apply IH.
    + intros name Hin. rewrite lookup_insert_is_Some.
      destruct (decide (fop = name)); [by left|right].
      split; [done|]. apply Hall. by apply elem_of_cons; right.
    + apply Forall_app. split; [done|]. by repeat constructor.
Qed.

Lemma join_columns_complete cols :
  Forall is_Some cols -> exists l, join_columns cols = Ok l.
Proof.
  induction 1 as [|c cols [s ->] _ [l IH]]; simpl; [by eexists|].
  rewrite IH. by eexists.
Qed.

Lemma fop_row_complete g stat i iv :
  latency_stat stat ->
  (forall name, name ∈ sorted_fop_names g ->
                is_Some (fop_profiles iv !! name)) ->
  exists s, (fop_row false g stat i iv).2 = Ok s.
Proof.
  intros Hstat Hall. unfold fop_row.
  destruct (accumulate_all_complete _ _ empty_all_fop_profile Hall)
    as [acc ->].
  rewrite timestamp_column_off.
  destruct (columns_loop_complete stat (duration iv)
              (fmul (avg_lat (normalize_sum acc)) (calls (normalize_sum acc)))
              _ _ [] Hstat Hall) as (fops' & cols' & -> & Hcols);
    [constructor|].
  simpl. destruct (join_columns_complete _ Hcols) as [l ->]. simpl.
  by eexists.
Qed.

Lemma same_raw_maps_is_Some m m' name :
  same_raw_maps m m' -> is_Some (m !! name) -> is_Some (m' !! name).
Proof.
  intros H [p Hp]. specialize (H name). rewrite Hp in H.
  inversion H. by eexists.
Qed.

Lemma fop_rows_complete g stat idxs ivs out :
  latency_stat stat ->
  (forall i iv name, ivs !! i = Some iv -> name ∈ sorted_fop_names g ->
                     is_Some (fop_profiles iv !! name)) ->
  (forall i, i ∈ idxs -> (i < length ivs)%nat) ->
  exists ivs' out', fop_rows false g stat idxs ivs out = (ivs', Ok out').
Proof.
  intros Hstat. revert ivs out.
  induction idxs as [|i rest IH]; intros ivs out Hall Hidx; simpl.
  - by eexists; eexists.
  - destruct (lookup_lt_is_Some_2 ivs i) as [p Hp];
      [apply Hidx; by apply elem_of_cons; left|].
    rewrite Hp.
    destruct (fop_row_complete g stat i p Hstat) as [s Hs];
      [intros name Hin; by eapply Hall|].
    pose proof (fop_row_frame false g stat i p) as Hframe.
    destruct (fop_row false g stat i p) as [p' r]. simpl in Hs, Hframe.
    subst r. apply IH.
    + intros j iv name Hj Hin. apply list_lookup_insert_Some in Hj.
      destruct Hj as [(<- & <- & _)|[_ Hj]]; [|by eapply Hall].
      destruct Hframe as (_ & _ & _ & Hmaps).
      eapply same_raw_maps_is_Some; [exact Hmaps|]. by eapply Hall.
    + intros j Hj. rewrite length_insert. apply Hidx.
      by apply elem_of_cons; right.
Qed.

(** X10: for the percentage and the three latency statistics, with the
    timestamp column switched off, a pass completes if and only if every
    interval has a record for every observed name: a missing record is the
    only thing that can make such a pass fail. *)
Theorem X10_latency_pass_completes_iff_complete g stat :
  latency_stat stat ->
  ((exists out, (gen_per_fop_stats false g stat).2 = Ok out) <-> complete g).
Proof.
  intros Hstat. split.
  - intros [out Hout] i iv name Hi Hin.
    destruct (gen_per_fop_stats false g stat) as [ivs' r] eqn:Hpass.
    simpl in Hout. subst r.
    destruct (gen_per_fop_stats_Ok _ _ _ _ _ Hpass i iv Hi) as [[s Hs] _].
    by eapply fop_row_Ok_complete.
  - intros Hcomplete. unfold gen_per_fop_stats.
    destruct (fop_rows_complete g stat (seq 0 (length (g_intervals g)))
                (g_intervals g) (fop_header false g) Hstat)
      as (ivs' & out' & ->).
    + intros i iv name Hi Hin. by eapply Hcomplete.
    + intros i Hi. apply elem_of_seq in Hi. lia.
    + by exists out'.
Qed.

Lemma X10_latency_pass_witness : complete (parsed log_read_write).
Proof.
  refine (proj1 (X10_latency_pass_completes_iff_complete
                   (parsed log_read_write) "min-lat" _) _).
  - right. right. left. reflexivity.
  - vm_compute. eexists. reflexivity.
Defined.

Lemma accumulate_all_first_missing fops before k after acc :
  (forall name, name ∈ before -> is_Some (fops !! name)) ->
  fops !! k = None ->
  accumulate_all fops (before ++ k :: after) acc = Raise (KeyError k).
Proof.
  revert acc. induction before as [|fop rest IH]; intros acc Hall Hk; simpl.
  - by rewrite Hk.
  - destruct (Hall fop) as [fs ->]; [by apply elem_of_cons; left|]. simpl.
    apply IH; [|done]. intros name Hin. apply Hall.
    by apply elem_of_cons; right.
Qed.

(** the pass ends with the exception of the first interval whose row
    raises *)
Lemma fop_rows_first_failure pb g stat pre i post ivs out iv e :
  NoDup (pre ++ i :: post) ->
  (forall j ivj, j ∈ pre -> ivs !! j = Some ivj ->
                 exists s, (fop_row pb g stat j ivj).2 = Ok s) ->
  (forall j, j ∈ pre -> (j < length ivs)%nat) ->
  ivs !! i = Some iv ->
  (fop_row pb g stat i iv).2 = Raise e ->
  (fop_rows pb g stat (pre ++ i :: post) ivs out).2 = Raise e.
Proof.
  revert ivs out. induction pre as [|j pre IH];
    intros ivs out Hnd Hpre Hlen Hi He; simpl.
  - rewrite Hi. destruct (fop_row pb g stat i iv) as [p' r].
    simpl in He. by subst r.
  - simpl in Hnd. apply NoDup_cons in Hnd as [Hj Hnd].
    destruct (lookup_lt_is_Some_2 ivs j) as [p Hp];
      [apply Hlen; by apply elem_of_cons; left|].
    rewrite Hp.
    destruct (Hpre j p) as [s Hs]; [by apply elem_of_cons; left|done|].
    destruct (fop_row pb g stat j p) as [p' r]. simpl in Hs. subst r.
    apply IH; [done| | | |done].
    + intros j' ivj Hj' Hl. apply (Hpre j' ivj);
        [by apply elem_of_cons; right|].
      rewrite list_lookup_insert_ne in Hl; [done|].
      intros ->. apply Hj. apply elem_of_app. by left.
    + intros j' Hj'. rewrite length_insert. apply Hlen.
      by apply elem_of_cons; right.
    + rewrite list_lookup_insert_ne; [done|].
      intros ->. apply Hj. apply elem_of_app. right.
      by apply elem_of_cons; left.
Qed.

Lemma seq_split_at (n i : nat) :
  (i < n)%nat -> seq 0 n = seq 0 i ++ i :: seq (S i) (n - S i).
Proof.
  intros Hi. replace n with (i + S (n - S i))%nat at 1 by lia.
  by rewrite seq_app.
Qed.

(** X18: what a statistic pass does with an interval that lacks a record.
    When [k] is the first of the sorted names that the interval has no
    record for, the row of that interval ends in the [KeyError] of [k],
    raised by the first loop over the names: nothing of the interval is
    changed and nothing of its row is written, not even the timestamp.
    The pass then cannot complete, and it ends with exactly this
    exception when the rows of the intervals before it are computed. *)
Theorem X18_missing_record_is_a_KeyError pb g stat i iv before k after :
  g_intervals g !! i = Some iv ->
  sorted_fop_names g = before ++ k :: after ->
  (forall name, name ∈ before -> is_Some (fop_profiles iv !! name)) ->
  fop_profiles iv !! k = None ->
  fop_row pb g stat i iv = (iv, Raise (KeyError k)) /\
  raises (gen_per_fop_stats pb g stat).2 /\
  ((forall j ivj, (j < i)%nat -> g_intervals g !! j = Some ivj ->
                  exists s, (fop_row pb g stat j ivj).2 = Ok s) ->
   (gen_per_fop_stats pb g stat).2 = Raise (KeyError k)).
Proof.
  intros Hi Hnames Hbefore Hk.
  assert (fop_row pb g stat i iv = (iv, Raise (KeyError k))) as Hrow.
  { unfold fop_row. rewrite Hnames.
    by rewrite (accumulate_all_first_missing _ _ _ _ _ Hbefore Hk). }
  split; [done|]. split.
  - destruct (gen_per_fop_stats pb g stat) as [ivs' r] eqn:Hpass.
    destruct r as [out|e]; [|by exists e]. exfalso.
    destruct (gen_per_fop_stats_Ok _ _ _ _ _ Hpass i iv Hi) as [[s Hs] _].
    rewrite Hrow in Hs. discriminate.
  - intros Hearlier. unfold gen_per_fop_stats.
    pose proof (lookup_lt_Some _ _ _ Hi) as Hlt.
    rewrite (seq_split_at _ _ Hlt).
    apply (fop_rows_first_failure pb g stat _ i _ _ _ iv).
    + rewrite <- (seq_split_at _ _ Hlt). apply NoDup_seq.
    + intros j ivj Hj Hl. apply elem_of_seq in Hj.
      apply (Hearlier j ivj); [lia | done].
    + intros j Hj. apply elem_of_seq in Hj. lia.
    + done.
    + by rewrite Hrow.
Qed.

Lemma X18_missing_record_witness :
  fop_row true (parsed log_incomplete) "avg-lat" 1
    (default new_ProfileInterval
       (g_intervals (parsed log_incomplete) !! 1%nat))
  = (default new_ProfileInterval
       (g_intervals (parsed log_incomplete) !! 1%nat),
     Raise (KeyError "READ")).
Proof.
  assert (g_intervals (parsed log_incomplete) !! 1%nat =
          Some (default new_ProfileInterval
                  (g_intervals (parsed log_incomplete) !! 1%nat))) as Hi
    by (vm_compute; reflexivity).
  assert (sorted_fop_names (parsed log_incomplete) = [] ++ "READ" :: ["WRITE"])
    as Hnames by (vm_compute; reflexivity).
  assert (fop_profiles
            (default new_ProfileInterval
               (g_intervals (parsed log_incomplete) !! 1%nat)) !! "READ"
          = None) as Hk by (vm_compute; reflexivity).
  refine (proj1 (X18_missing_record_is_a_KeyError true
                   (parsed log_incomplete) "avg-lat" 1 _ [] "READ" ["WRITE"]
                   Hi Hnames _ Hk)).
  intros name Hin. exfalso. exact (proj1 (elem_of_nil name) Hin).
Defined.

Lemma field2str_call_rate_Ok p d c :
  field2str p "call-rate" d = Ok c -> exists z, d = Some z /\ z <> 0.
Proof.
  unfold field2str. cbn [String.eqb Ascii.eqb Bool.eqb].
  destruct d as [z|]; [|discriminate]. intros H. exists z. split; [done|].
  intros ->. revert H. unfold of_option. rewrite ret_bind.
  change (py_float_of_int 0) with (Ok (S754_zero false) : result float).
  rewrite ret_bind. unfold py_truediv.
  change (feqb (S754_zero false) fzero) with true. discriminate.
Qed.

Lemma fop_row_Ok_field pb g stat i iv s :
  (fop_row pb g stat i iv).2 = Ok s ->
  forall name, name ∈ sorted_fop_names g ->
    exists p c, field2str p stat (duration iv) = Ok c.
Proof.
  unfold fop_row.
  destruct (accumulate_all _ _ _) as [acc|]; [|discriminate].
  destruct (timestamp_column pb g (Z.of_nat i)) as [ts|]; [|discriminate].
  destruct (columns_loop _ _ _ _ _ _) as [fops' r] eqn:Hloop. simpl.
  destruct r as [cols|]; [|discriminate]. intros _ name Hin.
  apply columns_loop_cols in Hloop as (new & _ & Hall).
  apply list_elem_of_lookup in Hin as [k Hk].
  destruct (Forall2_lookup_l _ _ _ _ _ Hall Hk) as (c & _ & p & _ & Hf).
  by eexists; eexists.
Qed.

(** X11: the call-rate pass divides by the duration recorded for each
    interval, and nothing catches a failure of that division: once a name
    has been observed, the pass completes only if every interval has a
    recorded duration other than zero; an interval block without a
    "Duration :" line is a [TypeError] there, a duration of 0 a
    [ZeroDivisionError]. *)
Theorem X11_call_rate_needs_durations pb g ivs' out :
  gen_per_fop_stats pb g "call-rate" = (ivs', Ok out) ->
  sorted_fop_names g <> [] ->
  (forall i iv, g_intervals g !! i = Some iv ->
     exists d, duration iv = Some d /\ d <> 0) /\
  (forall p, field2str p "call-rate" None = Raise TypeError) /\
  (forall p, field2str p "call-rate" (Some 0) = Raise ZeroDivisionError).
Proof.
  intros Hpass Hnames. split; [|split; reflexivity].
  intros i iv Hi.
  destruct (gen_per_fop_stats_Ok _ _ _ _ _ Hpass i iv Hi) as [[s Hs] _].
  destruct (sorted_fop_names g) as [|name names] eqn:Hn; [done|].
  destruct (fop_row_Ok_field _ _ _ _ _ _ Hs name) as (p & c & Hf).
  { rewrite Hn. by apply elem_of_cons; left. }
  by eapply field2str_call_rate_Ok.
Qed.

Lemma X11_call_rate_witness :
  exists d,
    duration (default new_ProfileInterval
                (g_intervals (parsed log_read_write) !! 1%nat)) = Some d /\
    d <> 0.
Proof.
  assert (exists ivs' out,
            gen_per_fop_stats false (parsed log_read_write) "call-rate"
            = (ivs', Ok out)) as (ivs' & out & Hpass)
    by (vm_compute; eexists; eexists; reflexivity).
  refine (proj1 (X11_call_rate_needs_durations false
                   (parsed log_read_write) ivs' out Hpass _) 1%nat _ _).
  - vm_compute. discriminate.
  - vm_compute. reflexivity.
Defined.

Lemma write_rows_ext row row' js out :
  (forall j, row j = row' j) ->
  write_rows row js out = write_rows row' js out.
Proof.
  intros Hext. revert out. induction js as [|j rest IH]; intros out; simpl;
    [done|].
  rewrite Hext. destruct (row' j); simpl; [apply IH | done].
Qed.

Lemma py_getitem_same_raw (ivs ivs' : list ProfileInterval) i :
  Forall2 same_raw_interval ivs ivs' ->
  match py_getitem ivs i, py_getitem ivs' i with
  | Ok iv, Ok iv' => same_raw_interval iv iv'
  | Raise e, Raise e' => e = e'
  | _, _ => False
  end.
Proof.
  intros H. unfold py_getitem, py_index.
  rewrite <- (Forall2_length _ _ _ H).
  destruct ((0 <=? i) && (i <? Z.of_nat (length ivs))).
  - rewrite !ret_bind.
    pose proof (proj1 (Forall2_lookup _ _ _) H (Z.to_nat i)) as Hl.
    by destruct Hl.
  - destruct ((- Z.of_nat (length ivs) <=? i) && (i <? 0)); [|done].
    rewrite !ret_bind.
    pose proof (proj1 (Forall2_lookup _ _ _) H
                  (Z.to_nat (Z.of_nat (length ivs) + i))) as Hl.
    by destruct Hl.
Qed.

Lemma bytes_row_same_raw pb g g' direction j :
  start_time g' = start_time g ->
  expected_sample_interval g' = expected_sample_interval g ->
  Forall2 same_raw_interval (g_intervals g) (g_intervals g') ->
  bytes_row pb g' direction j = bytes_row pb g direction j.
Proof.
  intros Hs He Hivs. unfold bytes_row, timestamp_column, gen_timestamp_ms,
    get_interval. rewrite Hs, He.
  destruct (if pb then _ else _) as [ts|]; [|done]. rewrite !ret_bind.
  cbn [String.eqb Ascii.eqb Bool.eqb].
  destruct (py_float_of_int (expected_sample_interval g)) as [x|]; [|done].
  rewrite !ret_bind.
  pose proof (py_getitem_same_raw _ _ (Z.of_nat j) Hivs) as Hget.
  destruct (py_getitem (g_intervals g) (Z.of_nat j)) as [iv|];
    destruct (py_getitem (g_intervals g') (Z.of_nat j)) as [iv'|];
    try done; [|by subst].
  rewrite !ret_bind. destruct Hget as (Hr & Hw & _ & _).
  by rewrite Hr, Hw.
Qed.

Lemma gen_output_bytes_same_raw pb g g' :
  start_time g' = start_time g ->
  expected_sample_interval g' = expected_sample_interval g ->
  Forall2 same_raw_interval (g_intervals g) (g_intervals g') ->
  gen_output_bytes pb g' = gen_output_bytes pb g.
Proof.
  intros Hs He Hivs. unfold gen_output_bytes.
  assert (forall direction,
            gen_output_bytes_file pb g' direction
            = gen_output_bytes_file pb g direction) as Hfile.
  { intros direction. unfold gen_output_bytes_file.
    rewrite <- (Forall2_length _ _ _ Hivs).
    apply write_rows_ext. intros j. by apply bytes_row_same_raw. }
  induction directions as [|d rest IH]; simpl; [done|].
  by rewrite Hfile, IH.
Qed.

Lemma gen_all_fop_stats_globals pb g stats :
  start_time (gen_all_fop_stats pb g stats).1 = start_time g /\
  expected_sample_interval (gen_all_fop_stats pb g stats).1
  = expected_sample_interval g.
Proof.
  revert g. induction stats as [|s rest IH]; intros g; simpl; [done|].
  destruct (gen_per_fop_stats pb g s) as [ivs r].
  destruct r; simpl; [|done].
  destruct (IH (with_g_intervals ivs g)) as [IH1 IH2].
  by destruct (gen_all_fop_stats pb (with_g_intervals ivs g) rest).
Qed.

(** X12: the byte-direction tables read nothing that a statistic pass
    writes: computed from the intervals as any pass, or the whole sequence
    of passes of [generate_output], leaves them, they are the same files,
    or the same exception, as before. *)
Theorem X12_byte_tables_ignore_aggregation pb g stat :
  gen_output_bytes pb (with_g_intervals (gen_per_fop_stats pb g stat).1 g)
  = gen_output_bytes pb g /\
  gen_output_bytes pb (generate_output pb g).1 = gen_output_bytes pb g.
Proof.
  split.
  - apply gen_output_bytes_same_raw; [done|done|].
    exact (proj1 (aggregation_frame_core pb g stat)).
  - apply gen_output_bytes_same_raw.
    + unfold generate_output. destruct (gen_output_bytes pb g); [|done].
      pose proof (gen_all_fop_stats_globals pb g stat_names) as [H _].
      by destruct (gen_all_fop_stats pb g stat_names).
    + unfold generate_output. destruct (gen_output_bytes pb g); [|done].
      pose proof (gen_all_fop_stats_globals pb g stat_names) as [_ H].
      by destruct (gen_all_fop_stats pb g stat_names).
    + exact (proj2 (aggregation_frame_core pb g stat)).
Qed.

Lemma filter_all_false {A} (f : A -> bool) (l : list A) :
  Forall (fun x => f x = false) l -> List.filter f l = [].
Proof.
  induction 1 as [|x l Hx _ IH]; simpl; [done|]. by rewrite Hx.
Qed.

(** outside an interval block, a line that is neither an interval marker
    nor a "Duration :" line is read without failure and leaves the loop
    outside an interval block *)
Lemma outside_block_step `{B : Builtins} esi st ln :
  found_interval_output st = false ->
  is_interval_marker ln = false -> classify ln <> DurationLine ->
  exists st', parse_line esi st ln = Ok st' /\
              found_interval_output st' = false.
Proof.
  intros Hf Hm Hd. unfold parse_line, is_interval_marker in *.
  destruct (classify ln); try discriminate; try done; rewrite ?Hf; simpl;
    by eexists.
Qed.

Lemma outside_block_run `{B : Builtins} esi st lines :
  found_interval_output st = false ->
  Forall (fun ln => is_interval_marker ln = false) lines ->
  Forall (fun ln => classify ln <> DurationLine) lines ->
  exists st', parse_lines esi st lines = Ok st'.
Proof.
  intros Hf Hm. revert st Hf.
  induction Hm as [|ln lines Hln _ IH]; intros st Hf Hd; simpl.
  - by eexists.
  - apply Forall_cons in Hd as [Hd1 Hd].
    destruct (outside_block_step esi st ln Hf Hln Hd1) as (st' & -> & Hf').
    simpl. by apply IH.
Qed.

Lemma no_marker_no_interval `{B : Builtins} esi lines st :
  parse_lines esi init_state lines = Ok st ->
  Forall (fun ln => is_interval_marker ln = false) lines ->
  intervals st = [] /\ sorted (fop_names st) = [].
Proof.
  intros Hrun Hnone.
  pose proof (run_length _ _ _ _ Hrun) as Hlen.
  rewrite (filter_all_false _ _ Hnone) in Hlen. simpl in Hlen.
  apply nil_length_inv in Hlen. split; [done|].
  assert (fop_names st = ∅) as ->.
  { apply elem_of_equiv_empty_L. intros name Hin.
    apply (names_inv_run _ _ _ _ names_inv_init Hrun) in Hin
      as (i & iv & Hi & _).
    rewrite Hlen in Hi. by rewrite lookup_nil in Hi. }
  unfold sorted. by rewrite elements_empty.
Qed.

(** X14: a log in which no line after the header is an interval marker.
    If it parses, it parses to no interval and no operation name, and
    every table that [generate_output] writes for it is its header line
    alone.  It does parse when the header is readable and no line after
    it is a "Duration :" line, whatever else these lines hold; the value
    is then the header's numbers with no interval and no name.  (A
    "Duration :" line can still end the run: outside a cumulative block it
    fails the assertion.) *)
Theorem X14_log_without_interval_marker `{B : Builtins} file_lines pb :
  Forall (fun ln => is_interval_marker ln = false)
    (drop 2 (py_strip <$> file_lines)) ->
  (forall g,
     parse_input file_lines = Ok g ->
     g_intervals g = [] /\ sorted_fop_names g = [] /\
     generate_output pb g =
     (g, Ok (((fun d => (d +:+ ".csv", bytes_header pb)) <$> directions) ++
             ((fun s => (s +:+ ".csv",
                         (if pb then "timestamp_ms, " else "") +:+ nl))
                <$> stat_names)))) /\
  (forall l0 l1 body count esi t,
     py_strip <$> file_lines = l0 :: l1 :: body ->
     int_token (String.words l0) 0 = Ok count ->
     int_token (String.words l0) 1 = Ok esi ->
     py_mktime_strptime l1 = Ok t ->
     Forall (fun ln => classify ln <> DurationLine) body ->
     parse_input file_lines =
     Ok (mkGlobals (fmul t (float_of_Z 1000)) esi count [] [])).
Proof.
  intros Hnone. split.
  - intros g Hparse.
    destruct (parse_input_Ok _ _ Hparse) as (st & Hrun & Hnames & Hivs).
    destruct (no_marker_no_interval _ _ _ Hrun Hnone) as [Hlen Hn].
    rewrite Hlen in Hivs. rewrite Hn in Hnames.
    split; [done|]. split; [done|].
    destruct g as [start esi cnt names ivs]. simpl in Hivs, Hnames. subst.
    by destruct pb.
  - intros l0 l1 body count esi t Hlines H0 H1 Ht Hdur.
    unfold parse_input. rewrite Hlines in *.
    change (py_getitem (l0 :: l1 :: body) 0) with (Ok l0 : result string).
    rewrite ret_bind, H0, ret_bind, H1, ret_bind.
    assert (py_getitem (l0 :: l1 :: body) 1 = Ok l1) as ->.
    { unfold py_getitem, py_index. simpl length.
      replace ((0 <=? 1) && (1 <? Z.of_nat (S (S (length body)))))
        with true; [done|].
      symmetry. apply andb_true_iff. split; [done|]. apply Z.ltb_lt. lia. }
    rewrite ret_bind, Ht, ret_bind.
    change (drop 2 (l0 :: l1 :: body)) with body in *.
    destruct (outside_block_run esi init_state body eq_refl Hnone Hdur)
      as [st Hrun].
    rewrite Hrun, ret_bind.
    destruct (no_marker_no_interval _ _ _ Hrun Hnone) as [Hlen Hn].
    unfold finish. by rewrite Hlen, Hn.
Qed.

Lemma X14_log_without_marker_witness :
  parse_input (B := decimal_builtins)
    (readlines (header_text ++ ["no marker here"; "BytesRead : 7"]))
  = Ok (mkGlobals (fmul (float_of_Z 1445467828) (float_of_Z 1000)) 5 2
          [] []).
Proof.
  refine (proj2 (X14_log_without_interval_marker (B := decimal_builtins)
                   (readlines
                      (header_text ++ ["no marker here"; "BytesRead : 7"]))
                   false _)
            "2 5" "Wed Oct 21 22:50:28 UTC 2015"
            ["no marker here"; "BytesRead : 7"] 2 5
            (float_of_Z 1445467828) _ _ _ _ _).
  - repeat (apply List.Forall_cons; [reflexivity|]). apply List.Forall_nil.
  - vm_compute. reflexivity.
  - vm_compute. reflexivity.
  - vm_compute. reflexivity.
  - vm_compute. reflexivity.
  - repeat (apply List.Forall_cons; [vm_compute; discriminate|]).
    apply List.Forall_nil.
Defined.

Lemma bytes_row_Ok_nonzero pb g direction j s :
  bytes_row pb g direction j = Ok s -> expected_sample_interval g <> 0.
Proof.
  unfold bytes_row.
  destruct (timestamp_column pb g (Z.of_nat j)) as [ts|]; [|discriminate].
  rewrite !ret_bind.
  change (get_interval g (Z.of_nat j) "interval")
    with (py_float_of_int (expected_sample_interval g)).
  intros H Hzero. rewrite Hzero in H.
  change (py_float_of_int 0) with (Ok (S754_zero false) : result float) in H.
  rewrite !ret_bind in H.
  destruct (py_getitem _ _) as [iv|]; [|discriminate].
  rewrite !ret_bind in H.
  destruct (of_option TypeError _) as [v|]; [|discriminate].
  rewrite !ret_bind in H.
  destruct (py_float_of_int v) as [x|]; [|discriminate].
  rewrite !ret_bind in H. unfold py_truediv at 1 in H.
  change (feqb (S754_zero false) fzero) with true in H. discriminate.
Qed.

Lemma bytes_file_Ok pb g direction content :
  gen_output_bytes_file pb g direction = Ok content ->
  forall j iv, g_intervals g !! j = Some iv ->
    expected_sample_interval g <> 0 /\
    is_Some (if contains "read" direction then bytes_read iv
             else bytes_written iv).
Proof.
  intros H j iv Hj. unfold gen_output_bytes_file in H.
  apply write_rows_Ok in H as (rows & _ & Hrows).
  pose proof (lookup_lt_Some _ _ _ Hj) as Hlt.
  destruct (Forall2_lookup_l _ _ _ j j Hrows) as (s & _ & Hrow).
  { by apply lookup_seq_lt. }
  split; [by eapply bytes_row_Ok_nonzero|].
  destruct (bytes_row_Ok _ _ _ _ _ _ Hj Hrow) as (ts & b & _ & -> & _).
  by eexists.
Qed.

Lemma gen_all_fop_stats_Ok pb g stats files :
  (gen_all_fop_stats pb g stats).2 = Ok files ->
  forall s, s ∈ stats ->
    exists g',
      sorted_fop_names g' = sorted_fop_names g /\
      Forall2 same_raw_interval (g_intervals g) (g_intervals g') /\
      exists ivs' out, gen_per_fop_stats pb g' s = (ivs', Ok out).
Proof.
  revert g files. induction stats as [|s0 rest IH]; intros g files H s Hs.
  - by apply elem_of_nil in Hs.
  - simpl in H. destruct (gen_per_fop_stats pb g s0) as [ivs r] eqn:Hpass.
    destruct r as [content|]; [|discriminate].
    apply elem_of_cons in Hs as [-> | Hs].
    + exists g. split; [done|]. split; [apply Forall2_same_raw_refl|].
      by exists ivs, content.
    + destruct (gen_all_fop_stats pb (with_g_intervals ivs g) rest)
        as [g'' r'] eqn:Hrest.
      simpl in H. destruct r' as [files'|]; [|discriminate].
      destruct (IH (with_g_intervals ivs g) files'
                  ltac:(by rewrite Hrest) s Hs) as (g' & Hn & Hf & Hp).
      exists g'. split; [done|]. split; [|done].
      eapply Forall2_same_raw_trans; [|exact Hf]. simpl.
      pose proof (fop_rows_frame pb g s0 (seq 0 (length (g_intervals g)))
                    (g_intervals g) (fop_header pb g)) as Hfr.
      unfold gen_per_fop_stats in Hpass. by rewrite Hpass in Hfr.
Qed.

Lemma same_raw_maps_is_Some_inv m m' name :
  same_raw_maps m m' -> is_Some (m' !! name) -> is_Some (m !! name).
Proof.
  intros H [p Hp]. specialize (H name). rewrite Hp in H.
  inversion H. by eexists.
Qed.

(** X15: what a completed [generate_output] says about the parsed data:
    every interval has a record for every observed name and both byte
    counters; if there is an interval at all, the sampling interval of the
    header is not zero; and if a name was observed, every interval has a
    recorded duration other than zero.  A log that lacks any of these
    parses, and fails while the tables are written. *)
Theorem X15_completed_output_needs_consistent_log pb g files :
  (generate_output pb g).2 = Ok files ->
  complete g /\
  (forall i iv, g_intervals g !! i = Some iv ->
     is_Some (bytes_read iv) /\ is_Some (bytes_written iv) /\
     expected_sample_interval g <> 0 /\
     (sorted_fop_names g <> [] ->
      exists d, duration iv = Some d /\ d <> 0)).
Proof.
  unfold generate_output.
  destruct (gen_output_bytes pb g) as [byte_files|] eqn:Hbytes;
    [|discriminate].
  destruct (gen_all_fop_stats pb g stat_names) as [g' r] eqn:Hall.
  simpl. destruct r as [stat_files|]; [|discriminate]. intros _.
  assert ((gen_all_fop_stats pb g stat_names).2 = Ok stat_files) as Hok
    by (by rewrite Hall).
  split.
  - intros i iv name Hi Hin.
    destruct (gen_all_fop_stats_Ok _ _ _ _ Hok "pct-lat")
      as (g1 & Hn1 & Hf1 & ivs1 & out1 & Hp1);
      [by apply elem_of_cons; left|].
    destruct (Forall2_lookup_l _ _ _ _ _ Hf1 Hi) as (iv1 & Hi1 & Hraw).
    destruct (gen_per_fop_stats_Ok _ _ _ _ _ Hp1 i iv1 Hi1) as [[s Hs] _].
    destruct Hraw as (_ & _ & _ & Hmaps).
    eapply same_raw_maps_is_Some_inv; [exact Hmaps|].
    eapply fop_row_Ok_complete; [exact Hs|]. by rewrite Hn1.
  - intros i iv Hi. unfold gen_output_bytes in Hbytes. simpl in Hbytes.
    destruct (gen_output_bytes_file pb g "MBps-read") as [c1|] eqn:Hr;
      [|discriminate].
    destruct (gen_output_bytes_file pb g "MBps-written") as [c2|] eqn:Hw;
      [|discriminate].
    destruct (bytes_file_Ok _ _ _ _ Hr i iv Hi) as [Hesi Hread].
    destruct (bytes_file_Ok _ _ _ _ Hw i iv Hi) as [_ Hwritten].
    split; [exact Hread|]. split; [exact Hwritten|]. split; [exact Hesi|].
    intros Hnames.
    destruct (gen_all_fop_stats_Ok _ _ _ _ Hok "call-rate")
      as (g5 & Hn5 & Hf5 & ivs5 & out5 & Hp5).
    { unfold stat_names. set_solver. }
    destruct (Forall2_lookup_l _ _ _ _ _ Hf5 Hi) as (iv5 & Hi5 & Hraw).
    destruct (gen_per_fop_stats_Ok _ _ _ _ _ Hp5 i iv5 Hi5) as [[s Hs] _].
    destruct (sorted_fop_names g) as [|name names] eqn:Hn; [done|].
    destruct (fop_row_Ok_field _ _ _ _ _ _ Hs name) as (p & c & Hf).
    { rewrite Hn5. by apply elem_of_cons; left. }
    destruct Hraw as (_ & _ & Hd & _). rewrite Hd.
    by eapply field2str_call_rate_Ok.
Qed.

Lemma X15_completed_output_witness : complete (parsed log_read_write).
Proof.
  assert (exists files,
            (generate_output false (parsed log_read_write)).2 = Ok files)
    as [files Hfiles] by (vm_compute; eexists; reflexivity).
  exact (proj1 (X15_completed_output_needs_consistent_log false
                  (parsed log_read_write) files Hfiles)).
Defined.

Lemma accumulate_same_raw acc p p' :
  same_raw p p' -> accumulate acc p' = accumulate acc p.
Proof.
  intros (Ha & Hm & Hx & Hc). unfold accumulate.
  by rewrite <- Ha, <- Hm, <- Hx, <- Hc.
Qed.

Lemma accumulate_all_same_raw m m' names acc :
  same_raw_maps m m' ->
  accumulate_all m' names acc = accumulate_all m names acc.
Proof.
  intros H. revert acc. induction names as [|fop rest IH]; intros acc; simpl;
    [done|].
  destruct (H fop) as [p p' Hp|]; simpl; [|done].
  by rewrite (accumulate_same_raw acc p p' Hp).
Qed.

Lemma get_pct_lat_same_raw p p' total :
  same_raw p p' -> get_pct_lat p' total = get_pct_lat p total.
Proof.
  intros (Ha & Hm & Hx & Hc). unfold get_pct_lat.
  by rewrite <- Ha, <- Hm, <- Hx, <- Hc.
Qed.

Lemma same_raw_maps_insert_both m m' fop q :
  same_raw_maps m m' -> same_raw_maps (<[fop := q]> m) (<[fop := q]> m').
Proof.
  intros H name. rewrite !lookup_insert. case_decide; [|apply H].
  constructor. apply same_raw_refl.
Qed.

Lemma columns_loop_same_raw stat d total names m m' cols :
  same_raw_maps m m' ->
  (columns_loop stat d total names m' cols).2
  = (columns_loop stat d total names m cols).2.
Proof.
  revert m m' cols. induction names as [|fop rest IH]; intros m m' cols H;
    simpl; [done|].
  destruct (H fop) as [p p' Hp|]; [|done].
  rewrite (get_pct_lat_same_raw p p' total Hp).
  destruct (field2str (get_pct_lat p total) stat d); [|done].
  apply IH. by apply same_raw_maps_insert_both.
Qed.

Lemma columns_loop_fixed stat d total names m cols m' r :
  columns_loop stat d total names m cols = (m', Ok r) ->
  columns_loop stat d total names m' cols = (m', Ok r).
Proof.
  intros H1.
  pose proof (columns_loop_frame stat d total names m cols) as Hframe.
  rewrite H1 in Hframe. simpl in Hframe.
  pose proof (columns_loop_same_raw stat d total names m m' cols Hframe)
    as Hsame.
  rewrite H1 in Hsame. simpl in Hsame.
  destruct (columns_loop stat d total names m' cols) as [m'' r2] eqn:H2.
  simpl in Hsame. subst r2. f_equal. apply map_eq. intros name.
  destruct (columns_loop_Ok _ _ _ _ _ _ _ _ H1 name) as [Hin1 Hout1].
  destruct (columns_loop_Ok _ _ _ _ _ _ _ _ H2 name) as [Hin2 Hout2].
  destruct (decide (name ∈ names)) as [Hin|Hout].
  - destruct (Hin1 Hin) as (p & _ & Hp'). destruct (Hin2 Hin) as (q & Hq & ->).
    rewrite Hq. f_equal. rewrite Hp' in Hq. by injection Hq as <-.
  - by apply Hout2.
Qed.

Lemma fop_row_fixed pb g stat i iv iv' s :
  fop_row pb g stat i iv = (iv', Ok s) ->
  fop_row pb g stat i iv' = (iv', Ok s).
Proof.
  pose proof (fop_row_frame pb g stat i iv) as Hframe.
  unfold fop_row in *.
  destruct (accumulate_all (fop_profiles iv) _ _) as [acc|] eqn:Hacc;
    [|discriminate].
  destruct (timestamp_column pb g (Z.of_nat i)) as [ts|]; [|discriminate].
  destruct (columns_loop _ _ _ _ (fop_profiles iv) _) as [fops' r] eqn:Hloop.
  destruct r as [cols|]; [|discriminate]. simpl in Hframe.
  intros H. injection H as <- Hs.
  destruct Hframe as (_ & _ & _ & Hmaps). simpl in Hmaps.
  simpl. rewrite (accumulate_all_same_raw _ _ _ _ Hmaps), Hacc.
  rewrite (columns_loop_fixed _ _ _ _ _ _ _ _ Hloop). simpl.
  by rewrite Hs.
Qed.

Lemma fop_rows_fixed pb g stat idxs ivs out ivs' out' :
  NoDup idxs ->
  fop_rows pb g stat idxs ivs out = (ivs', Ok out') ->
  fop_rows pb g stat idxs ivs' out = (ivs', Ok out').
Proof.
  intros Hnd. revert ivs out.
  induction Hnd as [|i rest Hi Hnd IH]; intros ivs out H; simpl in H.
  - by injection H as <- <-.
  - destruct (ivs !! i) as [p|] eqn:Hp; [|discriminate].
    destruct (fop_row pb g stat i p) as [p' r] eqn:Hrow.
    destruct r as [s|]; [|discriminate].
    pose proof (lookup_lt_Some _ _ _ Hp) as Hlt.
    assert (<[i := p']> ivs !! i = Some p') as Hins
      by (by apply list_lookup_insert_eq).
    destruct (fop_rows_Ok _ _ _ _ _ _ _ _ Hnd H i p' Hins) as [_ Hkeep].
    specialize (Hkeep Hi). simpl. rewrite Hkeep.
    rewrite (fop_row_fixed _ _ _ _ _ _ _ Hrow).
    rewrite (list_insert_id _ _ _ Hkeep). exact (IH _ _ H).
Qed.

Lemma fop_row_globals pb g g' stat i iv :
  sorted_fop_names g' = sorted_fop_names g ->
  start_time g' = start_time g ->
  expected_sample_interval g' = expected_sample_interval g ->
  fop_row pb g' stat i iv = fop_row pb g stat i iv.
Proof.
  intros Hn Hs He. unfold fop_row, timestamp_column, gen_timestamp_ms.
  by rewrite Hn, Hs, He.
Qed.

Lemma fop_rows_globals pb g g' stat idxs ivs out :
  sorted_fop_names g' = sorted_fop_names g ->
  start_time g' = start_time g ->
  expected_sample_interval g' = expected_sample_interval g ->
  fop_rows pb g' stat idxs ivs out = fop_rows pb g stat idxs ivs out.
Proof.
  intros Hn Hs He. revert ivs out.
  induction idxs as [|i rest IH]; intros ivs out; simpl; [done|].
  destruct (ivs !! i) as [p|]; [|done].
  rewrite (fop_row_globals pb g g' stat i p Hn Hs He).
  destruct (fop_row pb g stat i p) as [p' r]. destruct r; [apply IH | done].
Qed.

(** X13: a statistic pass is idempotent: run again on the intervals that a
    completed pass left, it changes nothing and writes the same text.  The
    percentages written by the first pass of [generate_output] are
    therefore the ones every later pass recomputes and finds. *)
Theorem X13_pass_is_idempotent pb g stat ivs' out :
  gen_per_fop_stats pb g stat = (ivs', Ok out) ->
  gen_per_fop_stats pb (with_g_intervals ivs' g) stat = (ivs', Ok out).
Proof.
  intros H. unfold gen_per_fop_stats in *.
  pose proof (fop_rows_frame pb g stat (seq 0 (length (g_intervals g)))
                (g_intervals g) (fop_header pb g)) as Hframe.
  rewrite H in Hframe. simpl in Hframe.
  change (g_intervals (with_g_intervals ivs' g)) with ivs'.
  change (fop_header pb (with_g_intervals ivs' g)) with (fop_header pb g).
  rewrite <- (Forall2_length _ _ _ Hframe).
  rewrite (fop_rows_globals pb g (with_g_intervals ivs' g)) by done.
  exact (fop_rows_fixed _ _ _ _ _ _ _ _ (NoDup_seq 0 _) H).
Qed.

Lemma X13_pass_is_idempotent_witness :
  exists ivs' out,
    gen_per_fop_stats true (parsed log_read_write) "pct-lat"
    = (ivs', Ok out) /\
    gen_per_fop_stats true (with_g_intervals ivs' (parsed log_read_write))
      "pct-lat" = (ivs', Ok out).
Proof.
  assert (exists ivs' out,
            gen_per_fop_stats true (parsed log_read_write) "pct-lat"
            = (ivs', Ok out)) as (ivs' & out & Hpass)
    by (vm_compute; eexists; eexists; reflexivity).
  exists ivs', out. split; [exact Hpass|].
  exact (X13_pass_is_idempotent true (parsed log_read_write) "pct-lat"
           ivs' out Hpass).
Defined.

(** * Further properties of the parser: flags and failures *)

Section ParserExtras3.
Context `{B : Builtins}.

Lemma step_flags esi st ln st' :
  parse_line esi st ln = Ok st' ->
  (found_cumulative_output st', found_interval_output st') =
  match classify ln with
  | IntervalMarker => (found_cumulative_output st, true)
  | CumulativeStatsCapital => (true, found_interval_output st)
  | CumulativeStatsMarker => (true, false)
  | CurrentOpenFd => (false, found_interval_output st)
  | _ => (found_cumulative_output st, found_interval_output st)
  end.
Proof.
  unfold parse_line. destruct (classify ln); intros H.
  - inv_bind. by injection H as <-.
  - by injection H as <-.
  - inv_bind. destruct (found_interval_output st) eqn:Hf.
    + apply update_current_Ok in H as (n & p & _ & _ & ->).
      destruct (1 <? _); simpl; by rewrite Hf.
    + injection H as <-. by rewrite Hf.
  - destruct (found_interval_output st) eqn:Hf.
    + inv_bind. apply update_current_Ok in H as (n & p & _ & _ & ->).
      simpl. by rewrite Hf.
    + injection H as <-. by rewrite Hf.
  - destruct (found_interval_output st) eqn:Hf.
    + inv_bind. apply update_current_Ok in H as (n & p & _ & _ & ->).
      simpl. by rewrite Hf.
    + injection H as <-. by rewrite Hf.
  - by injection H as <-.
  - by injection H as <-.
  - destruct (found_interval_output st && all_caps_name_match ln).
    + inv_bind. destruct (fop_profiles a !! a0); [no_fall_through|].
      by apply update_current_Ok in H as (n & p & _ & _ & ->).
    + by injection H as <-.
Qed.

(** X5: how the two flags can come to be set together.  From a state in
    which at most one flag is set, a line leaves both set in exactly two
    cases: the marker "Cumulative Stats" read inside an interval block, and
    an interval marker read inside a cumulative block (one that no "Current
    open fd" line has closed). *)
Theorem X5_how_both_flags_get_set esi st ln st' :
  parse_line esi st ln = Ok st' ->
  found_cumulative_output st && found_interval_output st = false ->
  (found_cumulative_output st' && found_interval_output st' = true <->
   (classify ln = CumulativeStatsCapital /\ found_interval_output st = true)
   \/ (classify ln = IntervalMarker /\ found_cumulative_output st = true)).
Proof.
  intros H Hone. apply step_flags in H.
  destruct (classify ln); injection H as -> ->;
    destruct (found_cumulative_output st), (found_interval_output st);
    simpl in *; try discriminate;
    (split; [intros Hb; try discriminate; auto
            | intros [[? ?]|[? ?]]; try discriminate; auto]).
Qed.

Lemma py_getitem_Raise {A} (l : list A) i e :
  py_getitem l i = Raise e -> e = IndexError.
Proof.
  unfold py_getitem, py_index.
  destruct ((0 <=? i) && (i <? Z.of_nat (length l))).
  - rewrite ret_bind. destruct (l !! Z.to_nat i); simpl; congruence.
  - destruct ((- Z.of_nat (length l) <=? i) && (i <? 0)).
    + rewrite ret_bind. destruct (l !! _); simpl; congruence.
    + simpl. congruence.
Qed.

Lemma int_token_Raise tokens i e :
  int_token tokens i = Raise e -> e = IndexError \/ e = ValueError.
Proof.
  unfold int_token. destruct (py_getitem tokens i) as [t|e'] eqn:Ht.
  - rewrite ret_bind. destruct (py_int t); simpl; [discriminate|].
    intros H. right. congruence.
  - simpl. intros H. left. injection H as <-. by eapply py_getitem_Raise.
Qed.

Lemma float_token_Raise tokens i e :
  float_token tokens i = Raise e -> e = IndexError \/ e = ValueError.
Proof.
  unfold float_token. destruct (py_getitem tokens i) as [t|e'] eqn:Ht.
  - rewrite ret_bind. destruct (py_float t); simpl; [discriminate|].
    intros H. right. congruence.
  - simpl. intros H. left. injection H as <-. by eapply py_getitem_Raise.
Qed.

Lemma update_current_Raise f st e :
  update_current f st = Raise e -> e = IndexError.
Proof.
  unfold update_current.
  destruct (py_index (intervals st) (intvl st)) as [n|e'] eqn:Hn.
  - rewrite ret_bind. destruct (intervals st !! n); simpl; congruence.
  - simpl. intros H. injection H as <-.
    apply (py_getitem_Raise (intervals st) (intvl st)).
    unfold py_getitem. by rewrite Hn.
Qed.

(** X16: the ways a line can end the run.  In a state of the loop, a line
    that raises does so in one of three places.  The assertion, exactly on
    a "Duration :" line read with the two flags equal.  The [raise]
    statement of an operation row whose name the current interval [iv]
    already has: it ends with the exception of
    [raise_fop_already_defined], which is the "already defined" exception
    exactly when both byte counters of [iv] are recorded and its call
    counts are finite, the [TypeError] of the message when the call counts
    are finite and a byte counter is still [None], and otherwise the
    [ValueError] or [OverflowError] of a call count that is nan or
    infinite.  Or an
    [IndexError] or [ValueError] for a token that is missing or
    unreadable, never on the three markers of the cumulative block.  The
    assertion of the interval marker is not among them. *)
Theorem X16_failures_of_a_line esi st ln e :
  reachable esi st -> parse_line esi st ln = Raise e ->
  (e = AssertionError /\ classify ln = DurationLine /\
   found_cumulative_output st = found_interval_output st) \/
  (exists name iv,
     op_row ln /\ row_name ln = Some name /\
     found_interval_output st = true /\
     py_getitem (intervals st) (intvl st) = Ok iv /\
     is_Some (fop_profiles iv !! name) /\
     raise_fop_already_defined (A := parse_state) name iv = Raise e /\
     (e = FopAlreadyDefined name \/ formatting_error e) /\
     (e = FopAlreadyDefined name <->
      finite_calls iv /\
      is_Some (bytes_read iv) /\ is_Some (bytes_written iv)) /\
     (finite_calls iv ->
      bytes_read iv = None \/ bytes_written iv = None ->
      e = TypeError)) \/
  ((e = IndexError \/ e = ValueError) /\
   classify ln <> CumulativeStatsCapital /\
   classify ln <> CumulativeStatsMarker /\
   classify ln <> CurrentOpenFd).
Proof.
  intros Hreach. pose proof (dict_inv_reachable _ _ Hreach) as Hdict.
  destruct Hreach as [pre Hpre].
  pose proof (counters_inv_run _ _ _ _ counters_inv_init Hpre) as [Hcnt _].
  unfold parse_line, op_row. destruct (classify ln) eqn:Hc; intros H.
  - right. right. split; [|done].
    destruct (int_token (String.words ln) 2) as [n|e'] eqn:Hn.
    + rewrite ret_bind in H. apply Z.eqb_eq in Hcnt. rewrite Hcnt in H.
      discriminate.
    + simpl in H. injection H as <-. by eapply int_token_Raise.
  - discriminate.
  - destruct (xorb _ _) eqn:Hx.
    + right. right. split; [|done]. simpl in H.
      destruct (int_token (String.words ln) 2) as [n|e'] eqn:Hn.
      * rewrite ret_bind in H.
        destruct (found_interval_output st); [|discriminate].
        left. by eapply update_current_Raise.
      * simpl in H. injection H as <-. by eapply int_token_Raise.
    + left. simpl in H. injection H as <-. split; [done|]. split; [done|].
      by destruct (found_cumulative_output st), (found_interval_output st).
  - right. right. split; [|done].
    destruct (found_interval_output st); [|discriminate].
    destruct (py_getitem (intervals st) (intvl st)) as [iv|e'] eqn:Hiv.
    + rewrite ret_bind in H.
      destruct (int_token (String.words ln) 2) as [n|e''] eqn:Hn.
      * rewrite ret_bind in H. left. by eapply update_current_Raise.
      * simpl in H. injection H as <-. by eapply int_token_Raise.
    + simpl in H. injection H as <-. left. by eapply py_getitem_Raise.
  - right. right. split; [|done].
    destruct (found_interval_output st); [|discriminate].
    destruct (py_getitem (intervals st) (intvl st)) as [iv|e'] eqn:Hiv.
    + rewrite ret_bind in H.
      destruct (int_token (String.words ln) 2) as [n|e''] eqn:Hn.
      * rewrite ret_bind in H. left. by eapply update_current_Raise.
      * simpl in H. injection H as <-. by eapply int_token_Raise.
    + simpl in H. injection H as <-. left. by eapply py_getitem_Raise.
  - discriminate.
  - discriminate.
  - destruct (found_interval_output st) eqn:Hf; [|discriminate].
    destruct (all_caps_name_match ln) eqn:Hm; [|discriminate].
    simpl in H.
    destruct (py_getitem (intervals st) (intvl st)) as [iv|e'] eqn:Hiv;
      [rewrite ret_bind in H
      |simpl in H; injection H as <-; right; right; split; [|done];
       left; by eapply py_getitem_Raise].
    destruct (py_getitem (String.words ln) 0) as [name|e'] eqn:Hname;
      [rewrite ret_bind in H
      |simpl in H; injection H as <-; right; right; split; [|done];
       left; by eapply py_getitem_Raise].
    destruct (float_token (String.words ln) 2) as [x2|e'] eqn:H2;
      [rewrite ret_bind in H
      |simpl in H; injection H as <-; right; right; split; [|done];
       by eapply float_token_Raise].
    destruct (float_token (String.words ln) 4) as [x4|e'] eqn:H4;
      [rewrite ret_bind in H
      |simpl in H; injection H as <-; right; right; split; [|done];
       by eapply float_token_Raise].
    destruct (float_token (String.words ln) 6) as [x6|e'] eqn:H6;
      [rewrite ret_bind in H
      |simpl in H; injection H as <-; right; right; split; [|done];
       by eapply float_token_Raise].
    destruct (float_token (String.words ln) 1) as [x1|e'] eqn:H1;
      [rewrite ret_bind in H
      |simpl in H; injection H as <-; right; right; split; [|done];
       by eapply float_token_Raise].
    destruct (fop_profiles iv !! name) as [p|] eqn:Hp.
    + right. left. exists name, iv.
      destruct (raise_fop_already_defined_cases (A := parse_state) name iv)
        as ((e' & He' & Hkind) & Hmsg & Htype & _).
      assert (e' = e) as -> by congruence.
      split; [done|]. split.
      { unfold row_name. rewrite py_getitem_0 in Hname.
        destruct (head (String.words ln)); simpl in Hname; congruence. }
      split; [done|]. split; [done|]. split; [by eexists|].
      split; [done|]. split; [done|]. split.
      * apply (raise_fop_already_defined_iff (A := parse_state));
          [|exact He'].
        apply py_getitem_Ok in Hiv as (k & _ & Hk).
        by eapply Forall_lookup_1.
      * intros Hfin Hnone. specialize (Htype Hfin Hnone). congruence.
    + right. right. split; [|done]. left. by eapply update_current_Raise.
Qed.

(** X17: a file that is too short.  With fewer than two lines, or fewer
    than two tokens on the first line, [parse_input] ends in an
    [IndexError], or in the [ValueError] of a first token that is not a
    number; the body of the log is not read. *)
Theorem X17_short_header_is_fatal file_lines :
  (length file_lines < 2)%nat \/
  (length (String.words (py_strip (hd "" file_lines))) < 2)%nat ->
  parse_input file_lines = Raise IndexError \/
  parse_input file_lines = Raise ValueError.
Proof.
  intros Hshort. unfold parse_input.
  destruct file_lines as [|l0 rest]; [by left|].
  change (py_getitem (py_strip <$> l0 :: rest) 0) with
    (Ok (py_strip l0) : result string).
  rewrite ret_bind. simpl in Hshort.
  destruct (int_token (String.words (py_strip l0)) 0) as [c|e] eqn:H0.
  - rewrite ret_bind.
    destruct (int_token (String.words (py_strip l0)) 1) as [n|e] eqn:H1.
    + rewrite ret_bind. destruct Hshort as [Hlen|Hlen].
      * destruct rest; [by left | simpl in Hlen; lia].
      * exfalso. unfold int_token in H0, H1.
        destruct (String.words (py_strip l0)) as [|t0 [|t1 ts]];
          simpl in Hlen; try lia; discriminate.
    + simpl. apply int_token_Raise in H1 as [-> | ->]; auto.
  - simpl. apply int_token_Raise in H0 as [-> | ->]; auto.
Qed.

End ParserExtras3.

Lemma X5_how_both_flags_witness :
  exists st',
    parse_line (B := decimal_builtins) 5
      (mkParseState false true ∅ (-1) 0 (-1) [new_ProfileInterval] [])
      "Cumulative Stats:" = Ok st' /\
    found_cumulative_output st' && found_interval_output st' = true.
Proof.
  eexists. split; [reflexivity|].
  refine (proj2 (X5_how_both_flags_get_set (B := decimal_builtins) 5
                   (mkParseState false true ∅ (-1) 0 (-1)
                      [new_ProfileInterval] [])
                   "Cumulative Stats:" _ eq_refl eq_refl) _).
  left. split; reflexivity.
Defined.

Lemma X16_failures_witness :
  parse_line (B := decimal_builtins) 5 init_state "Duration : 5 secs"
  = Raise AssertionError /\
  classify "Duration : 5 secs" = DurationLine.
Proof.
  split; [reflexivity|].
  destruct (X16_failures_of_a_line (B := decimal_builtins) 5 init_state
              "Duration : 5 secs" AssertionError
              (ex_intro _ [] eq_refl) eq_refl)
    as [(_ & Hc & _) | [(name & iv & _ & _ & Hf & _) | ([He | He] & _)]];
    [exact Hc | discriminate Hf | discriminate He | discriminate He].
Defined.

Lemma X17_short_header_witness :
  parse_input (B := decimal_builtins) (readlines ["2"; "Wed Oct 21"])
  = Raise IndexError \/
  parse_input (B := decimal_builtins) (readlines ["2"; "Wed Oct 21"])
  = Raise ValueError.
Proof.
  apply (X17_short_header_is_fatal (B := decimal_builtins)).
  right. vm_compute. lia.
Defined.
